(** * PLBenchmarks.utils: observable conversion and identifier resolution

    A shallow embedding of [PLBenchmarks/utils.py] and the properties of
    its functions [convertValue], [convertError], [findPdbUrl] and
    [findDoiUrl].

    Conventions of the embedding.
    - A Python call either returns a value or raises; [py A] is the error
      monad [exn + A].  A function that can fall off its end returns
      [py (option A)], [None] being Python's [None].
    - Magnitudes of quantities are Python floats in the source; they are
      idealised here as real numbers, so that [np.exp], [np.log] and [**]
      are the real exponential, logarithm and power.  Rounding error of
      the float operations is therefore outside the model;
      [Quantity.round(2)] is the exact round-half-even to two decimals.
    - The unit library (pint) is modelled by what the source uses of it:
      a unit is a dimension vector and a positive scale to the root
      units, a quantity is a magnitude and a unit. *)

From Stdlib Require Import Reals Lra Lia ZArith String Ascii List Bool.
From Stdlib Require Import DecimalString.
Import ListNotations.

Local Open Scope R_scope.

(* ------------------------------------------------------------------ *)
(** ** Python outcomes *)

Inductive exn : Type :=
| NotImplementedError
| DimensionalityError
| ZeroDivisionError
| KeyError (key : string)
| IndexError
| TypeError
| OtherError (what : string).

Definition py (A : Type) : Type := (exn + A)%type.

Definition ret {A : Type} (a : A) : py A := inr a.
Definition raise {A : Type} (e : exn) : py A := inl e.

Definition bind {A B : Type} (c : py A) (k : A -> py B) : py B :=
  match c with
  | inl e => inl e
  | inr a => k a
  end.

Declare Scope py_scope.
Delimit Scope py_scope with py.
Notation "x <- c ;; k" := (bind c (fun x => k))
  (at level 61, c at next level, right associativity) : py_scope.
Local Open Scope py_scope.

(* ------------------------------------------------------------------ *)
(** ** Units and quantities (the part of pint the source relies on) *)

Module Pint.

(** Exponents of the base dimensions. *)
Record Dim : Type := mkDim {
  d_mass : Z;
  d_length : Z;
  d_time : Z;
  d_substance : Z;
  d_temperature : Z
}.

Definition Dim_eqb (a b : Dim) : bool :=
  (d_mass a =? d_mass b)%Z && (d_length a =? d_length b)%Z &&
  (d_time a =? d_time b)%Z && (d_substance a =? d_substance b)%Z &&
  (d_temperature a =? d_temperature b)%Z.

Definition dim_one : Dim := mkDim 0 0 0 0 0.

Definition dim_mul (a b : Dim) : Dim :=
  mkDim (d_mass a + d_mass b) (d_length a + d_length b)
        (d_time a + d_time b) (d_substance a + d_substance b)
        (d_temperature a + d_temperature b).

Definition dim_inv (a : Dim) : Dim :=
  mkDim (- d_mass a) (- d_length a) (- d_time a) (- d_substance a)
        (- d_temperature a).

Definition dim_div (a b : Dim) : Dim := dim_mul a (dim_inv b).

(** A unit: its dimension and the factor that turns a magnitude in this
    unit into a magnitude in root units (kg, m, s, mol, K). *)
Record Unit : Type := mkUnit {
  udim : Dim;
  uscale : R
}.

Definition unit_mul (a b : Unit) : Unit :=
  mkUnit (dim_mul (udim a) (udim b)) (uscale a * uscale b).

Definition unit_div (a b : Unit) : Unit :=
  mkUnit (dim_div (udim a) (udim b)) (uscale a / uscale b).

Definition dim_energy_per_mole : Dim := mkDim 1 2 (-2) (-1) 0.
Definition dim_concentration : Dim := mkDim 0 (-3) 0 1 0.
Definition dim_temperature : Dim := mkDim 0 0 0 0 1.

(** The units named in the source. *)
Definition dimensionless : Unit := mkUnit dim_one 1.
Definition kelvin : Unit := mkUnit dim_temperature 1.
Definition joule_per_mole : Unit := mkUnit dim_energy_per_mole 1.
Definition joule_per_mole_per_kelvin : Unit := unit_div joule_per_mole kelvin.
Definition kilocalories_per_mole : Unit := mkUnit dim_energy_per_mole 4184.
Definition molar : Unit := mkUnit dim_concentration 1000.
Definition nanomolar : Unit := mkUnit dim_concentration (1000 * 1e-9).

Record Quantity : Type := mkQ {
  mag : R;
  unit : Unit
}.

(** Magnitude in root units. *)
Definition root_mag (q : Quantity) : R := mag q * uscale (unit q).

(** [x * q] and [q * x] for a float [x]. *)
Definition qscale (x : R) (q : Quantity) : Quantity :=
  mkQ (x * mag q) (unit q).

(** [x * u] for a float [x] and a unit [u] (also [x * ureg("...")],
    which is the quantity of magnitude 1). *)
Definition of_unit (x : R) (u : Unit) : Quantity := mkQ x u.

(** [q * u] and [q / u] for a unit [u]. *)
Definition q_mul_unit (q : Quantity) (u : Unit) : Quantity :=
  mkQ (mag q) (unit_mul (unit q) u).

Definition q_div_unit (q : Quantity) (u : Unit) : Quantity :=
  mkQ (mag q) (unit_div (unit q) u).

Definition qneg (q : Quantity) : Quantity := mkQ (- mag q) (unit q).

Definition qmul (a b : Quantity) : Quantity :=
  mkQ (mag a * mag b) (unit_mul (unit a) (unit b)).

(** [a / b]: float division of the magnitudes, which raises on zero. *)
Definition qdiv (a b : Quantity) : py Quantity :=
  if Req_dec_T (mag b) 0 then raise ZeroDivisionError
  else ret (mkQ (mag a / mag b) (unit_div (unit a) (unit b))).

(** [x / q] for a float [x]. *)
Definition fdivq (x : R) (q : Quantity) : py Quantity :=
  if Req_dec_T (mag q) 0 then raise ZeroDivisionError
  else ret (mkQ (x / mag q) (unit_div dimensionless (unit q))).

(** [q / x] for a float [x]. *)
Definition qdivf (q : Quantity) (x : R) : py Quantity :=
  if Req_dec_T x 0 then raise ZeroDivisionError
  else ret (mkQ (mag q / x) (unit q)).

(** [q.to(u)]. *)
Definition qto (q : Quantity) (u : Unit) : py Quantity :=
  if Dim_eqb (udim (unit q)) (udim u)
  then ret (mkQ (mag q * uscale (unit q) / uscale u) u)
  else raise DimensionalityError.

(** [a < b]: both sides are compared in root units; quantities of
    different dimensions cannot be ordered. *)
Definition qlt (a b : Quantity) : py bool :=
  if Dim_eqb (udim (unit a)) (udim (unit b))
  then ret (if Rlt_dec (root_mag a) (root_mag b) then true else false)
  else raise DimensionalityError.

(** [np.exp(q)] and [np.log(q)]: the argument is reduced to a plain
    number first, and must be dimensionless. *)
Definition np_exp (q : Quantity) : py Quantity :=
  if Dim_eqb (udim (unit q)) dim_one
  then ret (mkQ (exp (root_mag q)) dimensionless)
  else raise DimensionalityError.

Definition np_log (q : Quantity) : py Quantity :=
  if Dim_eqb (udim (unit q)) dim_one
  then ret (mkQ (ln (root_mag q)) dimensionless)
  else raise DimensionalityError.

(** [x ** q] for a float [x]: a plain float, [q] must be dimensionless. *)
Definition rpow (x : R) (q : Quantity) : py R :=
  if Dim_eqb (udim (unit q)) dim_one
  then ret (Rpower x (root_mag q))
  else raise DimensionalityError.

(** Nearest integer, ties to the even one. *)
Definition rint (x : R) : Z :=
  let f := Int_part x in
  let r := x - IZR f in
  if Rlt_dec r (1 / 2) then f
  else if Rlt_dec (1 / 2) r then (f + 1)%Z
  else if Z.even f then f else (f + 1)%Z.

(** Rounding to two decimals. *)
Definition round2 (x : R) : R := IZR (rint (x * 100)) / 100.

(** A number with at most two decimals. *)
Definition two_decimals (x : R) : Prop := exists z : Z, x = IZR z / 100.

(** [q.round(2)], with the rounding function made explicit. *)
Definition qround (rnd : R -> R) (q : Quantity) : Quantity :=
  mkQ (rnd (mag q)) (unit q).

End Pint.

Import Pint.

(* ------------------------------------------------------------------ *)
(** ** Observable conversion *)

Local Open Scope string_scope.

(** [scipy.constants.gas_constant], in J / (mol K). *)
Definition gas_constant : R := 8.314462618.

(** [BOLTZMANN = constants.gas_constant * ureg("J / mole / K")] *)
Definition BOLTZMANN : Quantity := of_unit gas_constant joule_per_mole_per_kelvin.

(** [BOLTZMANN * temperature * ureg.kelvin] *)
Definition kBT (temperature : R) : Quantity :=
  q_mul_unit (qscale temperature BOLTZMANN) kelvin.

(** [-BOLTZMANN * temperature * ureg.kelvin] *)
Definition neg_kBT (temperature : R) : Quantity :=
  q_mul_unit (qscale temperature (qneg BOLTZMANN)) kelvin.

(** [np.log(10)] *)
Definition ln10 : R := ln 10.

(** The four observable kinds and the codes the source compares with. *)
Inductive kind : Type := Dg | Ki | Ic50 | Pic50.

Definition code (k : kind) : string :=
  match k with
  | Dg => "dg"
  | Ki => "ki"
  | Ic50 => "ic50"
  | Pic50 => "pic50"
  end.

(** Whether a code is one of the four. *)
Definition supported (obs : string) : bool :=
  (obs =? "dg") || (obs =? "ki") || (obs =? "ic50") || (obs =? "pic50").

(** The block "define default units": [outUnit] after it.  For a
    [finalObs] outside the four codes it stays [None]. *)
Definition default_unit (finalObs : string) (outUnit : option Unit) : option Unit :=
  match outUnit with
  | Some u => Some u
  | None =>
      if finalObs =? "dg" then Some kilocalories_per_mole
      else if finalObs =? "ki" then Some nanomolar
      else if finalObs =? "ic50" then Some nanomolar
      else if finalObs =? "pic50" then Some dimensionless
      else None
  end.

(** The default unit of each kind, and the unit a conversion to a kind
    aims at. *)
Definition natural_unit (k : kind) : Unit :=
  match k with
  | Dg => kilocalories_per_mole
  | Ki => nanomolar
  | Ic50 => nanomolar
  | Pic50 => dimensionless
  end.

Definition target_unit (k : kind) (outUnit : option Unit) : Unit :=
  match outUnit with
  | Some u => u
  | None => natural_unit k
  end.

(** A use of [outUnit] as a unit; [None] is not one. *)
Definition as_unit (outUnit : option Unit) : py Unit :=
  match outUnit with
  | Some u => ret u
  | None => raise TypeError
  end.

(** [1e-15 * ureg("molar")] *)
Definition threshold : Quantity := of_unit 1e-15 molar.

(** [convertValue], with the function applied by [.round(2)] as a
    parameter. *)
Definition convertValue_with (rnd : R -> R)
    (val : Quantity) (originalObs finalObs : string)
    (temperature : R) (outUnit : option Unit) : py (option Quantity) :=
  let outUnit := default_unit finalObs outUnit in
  if originalObs =? "dg" then
    if finalObs =? "dg" then
      u <- as_unit outUnit ;;
      r <- qto val u ;;
      ret (Some r)
    else if finalObs =? "ki" then
      x <- qdiv (qneg val) (kBT temperature) ;;
      e <- np_exp x ;;
      u <- as_unit outUnit ;;
      r <- qto (q_mul_unit e molar) u ;;
      ret (Some r)
    else if finalObs =? "ic50" then
      x <- qdiv (qneg val) (kBT temperature) ;;
      e <- np_exp x ;;
      u <- as_unit outUnit ;;
      r <- qto (q_mul_unit e molar) u ;;
      ret (Some r)
    else if finalObs =? "pic50" then
      x <- qdiv val (kBT temperature) ;;
      y <- qdivf x ln10 ;;
      u <- as_unit outUnit ;;
      r <- qto y u ;;
      ret (Some r)
    else raise NotImplementedError
  else if originalObs =? "ki" then
    if finalObs =? "dg" then
      b <- qlt val threshold ;;
      if b : bool then
        u <- as_unit outUnit ;;
        ret (Some (of_unit 0 u))
      else
        l <- np_log (q_div_unit val molar) ;;
        u <- as_unit outUnit ;;
        r <- qto (qmul (kBT temperature) l) u ;;
        ret (Some (qround rnd r))
    else if finalObs =? "ki" then
      u <- as_unit outUnit ;;
      r <- qto val u ;;
      ret (Some r)
    else if finalObs =? "ic50" then
      u <- as_unit outUnit ;;
      r <- qto val u ;;
      ret (Some r)
    else if finalObs =? "pic50" then
      b <- qlt val threshold ;;
      if b : bool then
        u <- as_unit outUnit ;;
        ret (Some (of_unit (-1e15) u))
      else
        l <- np_log (q_div_unit val molar) ;;
        r <- qdivf (qneg l) ln10 ;;
        ret (Some r)
    else raise NotImplementedError
  else if originalObs =? "ic50" then
    if finalObs =? "dg" then
      b <- qlt val threshold ;;
      if b : bool then
        u <- as_unit outUnit ;;
        ret (Some (of_unit 0 u))
      else
        m <- qto val molar ;;
        l <- np_log (q_div_unit m molar) ;;
        u <- as_unit outUnit ;;
        r <- qto (qmul (kBT temperature) l) u ;;
        ret (Some (qround rnd r))
    else if finalObs =? "ki" then
      u <- as_unit outUnit ;;
      r <- qto val u ;;
      ret (Some r)
    else if finalObs =? "ic50" then
      u <- as_unit outUnit ;;
      r <- qto val u ;;
      ret (Some r)
    else if finalObs =? "pic50" then
      m <- qto val molar ;;
      b <- qlt m threshold ;;
      if b : bool then
        u <- as_unit outUnit ;;
        ret (Some (of_unit (-1e15) u))
      else
        l <- np_log (q_div_unit val molar) ;;
        r <- qdivf (qneg l) ln10 ;;
        ret (Some r)
    else raise NotImplementedError
  else if originalObs =? "pic50" then
    if finalObs =? "dg" then
      u <- as_unit outUnit ;;
      r <- qto (qscale ln10 (qmul (neg_kBT temperature) val)) u ;;
      ret (Some (qround rnd r))
    else if finalObs =? "ki" then
      p <- rpow 10 (qneg val) ;;
      u <- as_unit outUnit ;;
      r <- qto (qscale p (of_unit 1 molar)) u ;;
      ret (Some r)
    else if finalObs =? "ic50" then
      p <- rpow 10 (qneg val) ;;
      u <- as_unit outUnit ;;
      r <- qto (qscale p (of_unit 1 molar)) u ;;
      ret (Some r)
    else if finalObs =? "pic50" then
      u <- as_unit outUnit ;;
      r <- qto val u ;;
      ret (Some r)
    else raise NotImplementedError
  else ret None.

Definition convertValue := convertValue_with round2.

(** [convertError], with the function applied by [.round(2)] as a
    parameter. *)
Definition convertError_with (rnd : R -> R)
    (eVal val : Quantity) (originalObs finalObs : string)
    (temperature : R) (outUnit : option Unit) : py (option Quantity) :=
  let outUnit := default_unit finalObs outUnit in
  if originalObs =? "dg" then
    if finalObs =? "dg" then
      u <- as_unit outUnit ;;
      r <- qto eVal u ;;
      ret (Some r)
    else if finalObs =? "ki" then
      a <- fdivq 1 (kBT temperature) ;;
      x <- qdiv (qneg val) (kBT temperature) ;;
      e <- np_exp x ;;
      u <- as_unit outUnit ;;
      r <- qto (q_mul_unit (qmul (qmul a e) eVal) molar) u ;;
      ret (Some r)
    else if finalObs =? "ic50" then
      a <- fdivq 1 (kBT temperature) ;;
      x <- qdiv (qneg val) (kBT temperature) ;;
      e <- np_exp x ;;
      u <- as_unit outUnit ;;
      r <- qto (q_mul_unit (qmul (qmul a e) eVal) molar) u ;;
      ret (Some r)
    else if finalObs =? "pic50" then
      a <- fdivq 1 (qscale ln10 (kBT temperature)) ;;
      u <- as_unit outUnit ;;
      r <- qto (qmul a eVal) u ;;
      ret (Some r)
    else raise NotImplementedError
  else if originalObs =? "ki" then
    if finalObs =? "dg" then
      b <- qlt val threshold ;;
      if b : bool then
        u <- as_unit outUnit ;;
        ret (Some (of_unit 0 u))
      else
        a <- qdiv (kBT temperature) val ;;
        u <- as_unit outUnit ;;
        r <- qto (qmul a eVal) u ;;
        ret (Some (qround rnd r))
    else if finalObs =? "ki" then
      u <- as_unit outUnit ;;
      r <- qto eVal u ;;
      ret (Some r)
    else if finalObs =? "ic50" then
      u <- as_unit outUnit ;;
      r <- qto eVal u ;;
      ret (Some r)
    else if finalObs =? "pic50" then
      b <- qlt (qscale ln10 val) threshold ;;
      if b : bool then
        u <- as_unit outUnit ;;
        ret (Some (of_unit 1e15 u))
      else
        a <- fdivq 1 (qscale ln10 val) ;;
        u <- as_unit outUnit ;;
        r <- qto (qmul a eVal) u ;;
        ret (Some (qround rnd r))
    else raise NotImplementedError
  else if originalObs =? "ic50" then
    if finalObs =? "dg" then
      b <- qlt val threshold ;;
      if b : bool then
        u <- as_unit outUnit ;;
        ret (Some (of_unit 0 u))
      else
        a <- qdiv (kBT temperature) val ;;
        u <- as_unit outUnit ;;
        r <- qto (qmul a eVal) u ;;
        ret (Some (qround rnd r))
    else if finalObs =? "ki" then
      u <- as_unit outUnit ;;
      r <- qto eVal u ;;
      ret (Some r)
    else if finalObs =? "ic50" then
      u <- as_unit outUnit ;;
      r <- qto eVal u ;;
      ret (Some r)
    else if finalObs =? "pic50" then
      b <- qlt (qscale ln10 val) threshold ;;
      if b : bool then
        u <- as_unit outUnit ;;
        ret (Some (of_unit 1e15 u))
      else
        a <- fdivq 1 (qscale ln10 val) ;;
        u <- as_unit outUnit ;;
        r <- qto (qmul a eVal) u ;;
        ret (Some (qround rnd r))
    else raise NotImplementedError
  else if originalObs =? "pic50" then
    if finalObs =? "dg" then
      u <- as_unit outUnit ;;
      r <- qto (qmul (qscale ln10 (kBT temperature)) eVal) u ;;
      ret (Some (qround rnd r))
    else if finalObs =? "ki" then
      p <- rpow 10 (qneg val) ;;
      u <- as_unit outUnit ;;
      r <- qto (qmul (qscale (ln10 * p) eVal) (of_unit 1 molar)) u ;;
      ret (Some (qround rnd r))
    else if finalObs =? "ic50" then
      p <- rpow 10 (qneg val) ;;
      u <- as_unit outUnit ;;
      r <- qto (qmul (qscale (ln10 * p) eVal) (of_unit 1 molar)) u ;;
      ret (Some (qround rnd r))
    else if finalObs =? "pic50" then
      u <- as_unit outUnit ;;
      r <- qto eVal u ;;
      ret (Some (qround rnd r))
    else raise NotImplementedError
  else ret None.

Definition convertError := convertError_with round2.

(** The relation as the specification words it, dG = -R T ln(K / 1 molar),
    expressed in the unit [u] and rounded to two decimals.  It is
    compared with [convertValue] below. *)
Definition spec_dg_of_concentration (val : Quantity) (T : R) (u : Unit) : Quantity :=
  mkQ (round2 (- (gas_constant * T * ln (root_mag val / uscale molar)) / uscale u)) u.

(** A conversion from kind [A] to kind [B] into the default unit,
    followed by the conversion back into the unit the value came in. *)
Definition round_trip (A B : kind) (val : Quantity) (T : R) : py (option Quantity) :=
  r <- convertValue val (code A) (code B) T None ;;
  match r with
  | Some b => convertValue b (code B) (code A) T (Some (unit val))
  | None => ret None
  end.

(** The outcome [r] is the value [val] again, in its unit, up to [tol]. *)
Definition reproduces (tol : R) (val : Quantity) (r : py (option Quantity)) : Prop :=
  exists q, r = ret (Some q) /\ unit q = unit val /\ Rabs (mag q - mag val) <= tol.

(** Pairs of kinds that do not cross between the free energy and the
    three other kinds. *)
Definition no_dg_crossing (A B : kind) : bool :=
  match A, B with
  | Dg, Dg => true
  | Dg, _ => false
  | _, Dg => false
  | _, _ => true
  end.

(** The value, and the concentration on the way, stay at or above
    1e-15 molar. *)
Definition in_range (A B : kind) (val : Quantity) : Prop :=
  match A with
  | Ki | Ic50 => root_mag threshold <= root_mag val
  | Pic50 =>
      match B with
      | Ki | Ic50 => mag val <= 15
      | _ => True
      end
  | Dg => True
  end.

(** Which conversions apply [.round(2)] to what they return. *)
Definition value_rounds (src dst : kind) : bool :=
  match src, dst with
  | Dg, _ => false
  | _, Dg => true
  | _, _ => false
  end.

Definition error_rounds (src dst : kind) : bool :=
  match src, dst with
  | Dg, _ => false
  | Pic50, _ => true
  | _, Dg => true
  | _, Pic50 => true
  | _, _ => false
  end.

(** Rounding of a returned quantity to two decimals. *)
Definition round_result (r : py (option Quantity)) : py (option Quantity) :=
  match r with
  | inr (Some q) => inr (Some (qround round2 q))
  | _ => r
  end.

(** No rounding. *)
Definition unrounded (x : R) : R := x.

(* ------------------------------------------------------------------ *)
(** ** External identifier resolution *)

(** Python text is modelled as ASCII strings. *)
Definition nl : string := String "010"%char EmptyString.
Definition dquote : string := String "034"%char EmptyString.

(** [str.isspace] on one ASCII character. *)
Definition is_space (c : ascii) : bool :=
  let n := nat_of_ascii c in
  ((9 <=? n)%nat && (n <=? 13)%nat) || ((28 <=? n)%nat && (n <=? 32)%nat).

Definition flush (cur : string) (rest : list string) : list string :=
  match cur with
  | EmptyString => rest
  | _ => cur :: rest
  end.

(** [s.split()]: the maximal runs of non-space characters. *)
Fixpoint split_from (cur : string) (s : string) : list string :=
  match s with
  | EmptyString => flush cur []
  | String c s' =>
      if is_space c then flush cur (split_from EmptyString s')
      else split_from (cur ++ String c EmptyString) s'
  end.

Definition split (s : string) : list string := split_from EmptyString s.

(** A text without white space. *)
Fixpoint no_space (s : string) : bool :=
  match s with
  | EmptyString => true
  | String c s' => negb (is_space c) && no_space s'
  end.

(** [sep.join(l)] *)
Definition join (sep : string) (l : list string) : string := String.concat sep l.

(** [p in page] for a list of strings. *)
Definition str_in (p : string) (page : list string) : bool :=
  existsb (String.eqb p) page.

(** A request as [urllib.request.Request(url, data=...)] builds it. *)
Record Request : Type := mkRequest {
  req_url : string;
  req_data : option string
}.

(** What [urlopen] followed by [read().decode("utf-8")] does: it gives
    the page, raises [urllib.error.URLError] (or a subclass), or raises
    something else. *)
Inductive net : Type :=
| NetBody (page : string)
| NetURLError (e : string)
| NetRaise (other : exn).

Set Warnings "-register-all".

(** A parsed JSON document, as [json.loads] returns it.  The fields of
    an object are the items of the resulting dict; [lookup] reads the
    first item with the key. *)
Inductive json : Type :=
| JNull
| JBool (b : bool)
| JInt (n : Z)
| JFloat (text : string)
| JStr (s : string)
| JArr (items : list json)
| JObj (fields : list (string * json)).

Fixpoint lookup (k : string) (fields : list (string * json)) : option json :=
  match fields with
  | [] => None
  | (k', v) :: rest => if k =? k' then Some v else lookup k rest
  end.

(** [v[k]] for a string [k]. *)
Definition getitem (v : json) (k : string) : py json :=
  match v with
  | JObj fields =>
      match lookup k fields with
      | Some x => ret x
      | None => raise (KeyError k)
      end
  | _ => raise TypeError
  end.

(** [v[0]] *)
Definition getitem0 (v : json) : py json :=
  match v with
  | JArr (x :: _) => ret x
  | JArr [] => raise IndexError
  | JStr (String c _) => ret (JStr (String c EmptyString))
  | JStr EmptyString => raise IndexError
  | JObj _ => raise (KeyError "0")
  | _ => raise TypeError
  end.

(** [len(v)] *)
Definition py_len (v : json) : py nat :=
  match v with
  | JArr items => ret (List.length items)
  | JStr s => ret (String.length s)
  | JObj fields => ret (List.length fields)
  | _ => raise TypeError
  end.

(** [k in v.keys()] *)
Definition has_key (k : string) (v : json) : py bool :=
  match v with
  | JObj fields =>
      ret (match lookup k fields with Some _ => true | None => false end)
  | _ => raise (OtherError "AttributeError")
  end.

(** [v == s] for a string literal [s]. *)
Definition eq_str (v : json) (s : string) : bool :=
  match v with
  | JStr t => t =? s
  | _ => false
  end.

Definition str_of_Z (n : Z) : string := NilZero.string_of_int (Z.to_int n).

Section Resolution.

(** The outside world: the network and the two library functions whose
    text output is not spelled out here. *)
Variable urlopen : Request -> net.
Variable json_loads : string -> py json.
Variable repr_container : json -> string.

(** [str(v)], as the format fields apply it. *)
Definition py_str (v : json) : string :=
  match v with
  | JNull => "None"
  | JBool true => "True"
  | JBool false => "False"
  | JInt n => str_of_Z n
  | JFloat text => text
  | JStr s => s
  | JArr _ => repr_container v
  | JObj _ => repr_container v
  end.

Definition query_text (pdb : string) : string :=
  "<orgPdbCompositeQuery version=" ++ dquote ++ "1.0" ++ dquote ++ ">" ++
  " <queryRefinement>" ++
  "   <queryRefinementLevel>0</queryRefinementLevel>" ++
  "      <orgPdbQuery>" ++
  "        <version>head</version>" ++
  "        <queryType>org.pdb.query.simple.StructureIdQuery</queryType>" ++
  "        <structureIdList>" ++ pdb ++ "</structureIdList>" ++
  "      </orgPdbQuery>" ++
  " </queryRefinement>" ++
  "</orgPdbCompositeQuery>".

Definition pdb_link (p : string) : string :=
  "REP1http://www.rcsb.org/structure/" ++ p ++ "REP2" ++ p ++ "REP3".

(** [findPdbUrl]: the warnings emitted, in order, and the outcome. *)
Definition findPdbUrl (pdb : option string) : list string * py string :=
  match pdb with
  | None => ([], ret "")
  | Some pdb =>
      let url := "http://www.rcsb.org/pdb/rest/search" in
      let request := mkRequest url (Some (query_text pdb)) in
      match urlopen request with
      | NetBody page =>
          let page := split page in
          let pdbs := split pdb in
          let res := map pdb_link page in
          let missing := filter (fun p => negb (str_in p page)) pdbs in
          (map (fun p => "PDB " ++ p ++ " not found") missing,
           ret (join nl res))
      | NetURLError e =>
          (["Could not find PDB " ++ pdb ++ nl ++ e],
           ret (join nl (split pdb)))
      | NetRaise other => ([], raise other)
      end
  end.

(** The body of the [try] of [findDoiUrl] once the page is read. *)
Definition doi_link (page : string) : py string :=
  obj <- json_loads page ;;
  status <- getitem obj "status" ;;
  obj <- (if eq_str status "ok" then getitem obj "message" else ret obj) ;;
  aut <- getitem obj "author" ;;
  n <- py_len aut ;;
  aut <- (if (0 <? n)%nat then
            a <- getitem obj "author" ;;
            a0 <- getitem0 a ;;
            getitem a0 "family"
          else ret (JStr "")) ;;
  tit <- getitem obj "short-container-title" ;;
  n <- py_len tit ;;
  tit <- (if (0 <? n)%nat then getitem0 tit else ret (JStr "")) ;;
  present <- has_key "published-print" obj ;;
  dat <- (if present : bool then
            d <- getitem obj "published-print" ;;
            d <- getitem d "date-parts" ;;
            d <- getitem0 d ;;
            getitem0 d
          else ret (JStr "XXXX")) ;;
  let desc_string := py_str aut ++ " et al., " ++ py_str tit ++ " " ++ py_str dat in
  link <- getitem obj "URL" ;;
  ret ("REP1" ++ py_str link ++ "REP2" ++ desc_string ++ "REP3").

(** [findDoiUrl]: the warnings emitted, in order, and the outcome. *)
Definition findDoiUrl (doi : string) : list string * py string :=
  let url := "https://api.crossref.org/works/" ++ doi in
  let request := mkRequest url None in
  match urlopen request with
  | NetBody page => ([], doi_link page)
  | NetURLError e => (["Could not find DOI: " ++ doi ++ nl ++ e], ret doi)
  | NetRaise other => ([], raise other)
  end.

End Resolution.

(** The three parts of the citation label, read off the metadata. *)
Inductive family_name : list json -> string -> Prop :=
| no_author : family_name [] ""
| first_author (a : list (string * json)) (rest : list json) (fam : string) :
    lookup "family" a = Some (JStr fam) ->
    family_name (JObj a :: rest) fam.

Inductive short_title : list json -> string -> Prop :=
| no_title : short_title [] ""
| first_title (t : string) (rest : list json) : short_title (JStr t :: rest) t.

Inductive print_year : list (string * json) -> string -> Prop :=
| no_print_date (fields : list (string * json)) :
    lookup "published-print" fields = None ->
    print_year fields "XXXX"
| print_date (fields pp : list (string * json)) (y : Z) (parts dates : list json) :
    lookup "published-print" fields = Some (JObj pp) ->
    lookup "date-parts" pp = Some (JArr (JArr (JInt y :: parts) :: dates)) ->
    print_year fields (str_of_Z y).



(** Sample metadata: a message as the bibliographic service sends it,
    one without a print date, and one without authors. *)
Definition sample_url : string := "http://dx.doi.org/10.1021/ja512751q".

Definition sample_core : list (string * json) :=
  [("short-container-title", JArr [JStr "J. Am. Chem. Soc."]);
   ("URL", JStr sample_url);
   ("score", JFloat "1.0")].

Definition sample_authors : string * json :=
  ("author", JArr [JObj [("given", JStr "Lingle"); ("family", JStr "Wang")];
                   JObj [("given", JStr "Yujie"); ("family", JStr "Wu")]]).

Definition sample_print : string * json :=
  ("published-print", JObj [("date-parts", JArr [JArr [JInt 2015; JInt 2; JInt 25]])]).

Definition response (message : list (string * json)) : json :=
  JObj [("status", JStr "ok"); ("message-type", JStr "work"); ("message", JObj message)].


Definition sample_no_print : list (string * json) := sample_authors :: sample_core.

Definition sample_no_author : list (string * json) := sample_print :: sample_core.



(** The dimension a value of each kind has. *)
Definition kind_dim (k : kind) : Dim :=
  match k with
  | Dg => dim_energy_per_mole
  | Ki => dim_concentration
  | Ic50 => dim_concentration
  | Pic50 => dim_one
  end.

(** The kinds that are concentrations. *)
Definition is_concentration (k : kind) : bool :=
  match k with
  | Ki | Ic50 => true
  | _ => false
  end.

(** The magnitude a call returned (0 when it returned none). *)
Definition value_of (r : py (option Quantity)) : R :=
  match r with
  | inr (Some q) => mag q
  | _ => 0
  end.

(** A returned quantity multiplied by a float. *)
Definition scale_result (a : R) (r : py (option Quantity)) : py (option Quantity) :=
  match r with
  | inr (Some q) => inr (Some (qscale a q))
  | _ => r
  end.

(** Pairs whose propagated error is a fixed multiple of the input
    error, whatever the value. *)
Definition error_ignores_value (src dst : kind) : bool :=
  match src, dst with
  | Dg, Dg | Dg, Pic50 => true
  | Ki, Ki | Ki, Ic50 | Ic50, Ki | Ic50, Ic50 => true
  | Pic50, Dg | Pic50, Pic50 => true
  | _, _ => false
  end.

(** One conversion applied to what another returned. *)
Definition and_then (r : py (option Quantity)) (f : Quantity -> py (option Quantity))
    : py (option Quantity) :=
  q <- r ;;
  match q with
  | Some b => f b
  | None => ret None
  end.

(* ------------------------------------------------------------------ *)
(** * Properties *)

(** ** Basic facts about dimensions, constants and rounding *)

Lemma Dim_eqb_refl (d : Dim) : Dim_eqb d d = true.
Proof.
  unfold Dim_eqb. now rewrite !Z.eqb_refl.
Qed.

Lemma Dim_eqb_eq (a b : Dim) : Dim_eqb a b = true <-> a = b.
Proof.
  split.
  - unfold Dim_eqb. intros H.
    repeat (apply andb_prop in H; destruct H as [H ?]).
    destruct a, b; simpl in *.
    repeat match goal with E : (_ =? _)%Z = true |- _ => apply Z.eqb_eq in E end.
    now subst.
  - intros ->. apply Dim_eqb_refl.
Qed.

Lemma default_unit_code (k : kind) (outUnit : option Unit) :
  default_unit (code k) outUnit = Some (target_unit k outUnit).
Proof.
  destruct outUnit as [u|]; [reflexivity|]. now destruct k.
Qed.

Lemma gas_constant_pos : 0 < gas_constant.
Proof. unfold gas_constant. lra. Qed.

Lemma exp_2_lt_10 : exp 2 < 10.
Proof.
  replace 2 with (1 + 1) by lra. rewrite exp_plus.
  pose proof exp_le_3 as H3. pose proof (exp_pos 1) as Hp. nra.
Qed.

Lemma ln10_gt_2 : 2 < ln10.
Proof.
  unfold ln10. apply exp_lt_inv. rewrite exp_ln by lra. apply exp_2_lt_10.
Qed.

Lemma ln10_neq_0 : ln10 <> 0.
Proof. pose proof ln10_gt_2. lra. Qed.

Lemma qdivf_ln10 (q : Quantity) : qdivf q ln10 = ret (mkQ (mag q / ln10) (unit q)).
Proof.
  unfold qdivf. destruct (Req_dec_T ln10 0) as [E|_]; [|reflexivity].
  now destruct ln10_neq_0.
Qed.

Lemma Int_part_IZR (z : Z) : Int_part (IZR z) = z.
Proof.
  destruct (base_Int_part (IZR z)) as [Hle Hgt].
  assert (H1 : (Int_part (IZR z) <= z)%Z) by now apply le_IZR.
  assert (H2 : (z < Int_part (IZR z) + 1)%Z).
  { apply lt_IZR. rewrite plus_IZR. simpl. lra. }
  lia.
Qed.

Lemma rint_IZR (z : Z) : rint (IZR z) = z.
Proof.
  unfold rint. rewrite Int_part_IZR.
  destruct (Rlt_dec (IZR z - IZR z) (1 / 2)) as [_|H]; [reflexivity|].
  exfalso. apply H. lra.
Qed.

Lemma rint_near (x : R) : - (1 / 2) <= IZR (rint x) - x <= 1 / 2.
Proof.
  unfold rint. destruct (base_Int_part x) as [Hle Hgt].
  destruct (Rlt_dec (x - IZR (Int_part x)) (1 / 2)) as [H|H]; [lra|].
  destruct (Rlt_dec (1 / 2) (x - IZR (Int_part x))) as [H'|H'].
  - rewrite plus_IZR. simpl. lra.
  - destruct (Z.even (Int_part x)); [lra|]. rewrite plus_IZR. simpl. lra.
Qed.

Lemma round2_near (x : R) : - (1 / 200) <= round2 x - x <= 1 / 200.
Proof.
  unfold round2. pose proof (rint_near (x * 100)). lra.
Qed.

Lemma round2_two_decimals (x : R) : two_decimals (round2 x).
Proof. now exists (rint (x * 100)). Qed.

Lemma round2_fixes (z : Z) : round2 (IZR z / 100) = IZR z / 100.
Proof.
  unfold round2. replace (IZR z / 100 * 100) with (IZR z) by lra.
  now rewrite rint_IZR.
Qed.

Lemma round2_0 : round2 0 = 0.
Proof.
  replace 0 with (IZR 0 / 100) at 1 by lra. rewrite round2_fixes. lra.
Qed.

(** ** Stepping through a conversion *)

Lemma bind_ret {A B : Type} (a : A) (k : A -> py B) : bind (ret a) k = k a.
Proof. reflexivity. Qed.

Lemma bind_raise {A B : Type} (e : exn) (k : A -> py B) : bind (raise e) k = raise e.
Proof. reflexivity. Qed.

Lemma qto_same_dim (q : Quantity) (u : Unit) :
  udim (unit q) = udim u ->
  qto q u = ret (mkQ (mag q * uscale (unit q) / uscale u) u).
Proof.
  intros E. unfold qto. now rewrite E, Dim_eqb_refl.
Qed.

Lemma qto_other_dim (q : Quantity) (u : Unit) :
  udim (unit q) <> udim u -> qto q u = raise DimensionalityError.
Proof.
  intros E. unfold qto. destruct (Dim_eqb _ _) eqn:D; [|reflexivity].
  apply Dim_eqb_eq in D. contradiction.
Qed.

Lemma qto_unit (q r : Quantity) (u : Unit) : qto q u = ret r -> unit r = u.
Proof.
  unfold qto. destruct (Dim_eqb _ _); [|discriminate].
  intros E. injection E as <-. reflexivity.
Qed.

Lemma qlt_below (a b : Quantity) :
  udim (unit a) = udim (unit b) -> root_mag a < root_mag b -> qlt a b = ret true.
Proof.
  intros E H. unfold qlt. rewrite E, Dim_eqb_refl.
  destruct (Rlt_dec _ _); [reflexivity|contradiction].
Qed.

Lemma qlt_not_below (a b : Quantity) :
  udim (unit a) = udim (unit b) -> root_mag b <= root_mag a -> qlt a b = ret false.
Proof.
  intros E H. unfold qlt. rewrite E, Dim_eqb_refl.
  destruct (Rlt_dec _ _); [lra|reflexivity].
Qed.

Lemma root_mag_threshold : root_mag threshold = 1e-12.
Proof. unfold root_mag, threshold, of_unit, molar. simpl. lra. Qed.

(** Decides the comparisons of literal kind codes in the goal. *)
Ltac codes :=
  repeat match goal with
  | |- context [String.eqb ?a ?b] =>
      let v := eval vm_compute in (String.eqb a b) in
      match v with
      | true => change (String.eqb a b) with true
      | false => change (String.eqb a b) with false
      end
  end;
  cbv iota.

(** ** Same source and target kind *)

Lemma convertValue_same_kind (k : kind) (val : Quantity) (T : R) (outUnit : option Unit) :
  convertValue val (code k) (code k) T outUnit =
  (r <- qto val (target_unit k outUnit) ;; ret (Some r)).
Proof.
  unfold convertValue, convertValue_with. rewrite default_unit_code.
  destruct k; reflexivity.
Qed.

(** C7. Converting a quantity to its own kind is the identity up to
    the unit: when the quantity can be expressed in the requested (or
    default) unit, [convertValue] returns it in that unit, the same
    physical amount, its magnitude only rescaled by the two units. *)
Theorem convertValue_identity (k : kind) (val : Quantity) (T : R) (outUnit : option Unit) :
  udim (unit val) = udim (target_unit k outUnit) ->
  uscale (target_unit k outUnit) <> 0 ->
  exists q,
    convertValue val (code k) (code k) T outUnit = ret (Some q) /\
    unit q = target_unit k outUnit /\
    mag q = mag val * uscale (unit val) / uscale (target_unit k outUnit) /\
    root_mag q = root_mag val.
Proof.
  intros Hdim Hscale. rewrite convertValue_same_kind, (qto_same_dim _ _ Hdim).
  eexists. split; [reflexivity|]. unfold root_mag. simpl.
  repeat split. now field.
Qed.

Lemma convertValue_identity_witness :
  exists q,
    convertValue (mkQ 5 molar) (code Ki) (code Ki) 300 None = ret (Some q) /\
    unit q = nanomolar /\
    mag q = 5 * uscale molar / uscale nanomolar /\
    root_mag q = root_mag (mkQ 5 molar).
Proof.
  apply (convertValue_identity Ki (mkQ 5 molar) 300 None).
  - reflexivity.
  - simpl. lra.
Defined.

Lemma convertValue_same_kind_other_dimension (k : kind) (val : Quantity) (T : R)
    (outUnit : option Unit) :
  udim (unit val) <> udim (target_unit k outUnit) ->
  convertValue val (code k) (code k) T outUnit = raise DimensionalityError.
Proof.
  intros Hdim. now rewrite convertValue_same_kind, (qto_other_dim _ _ Hdim).
Qed.

(** ** Unsupported kinds *)

Lemma convertValue_unsupported_source (val : Quantity) (originalObs finalObs : string)
    (T : R) (outUnit : option Unit) :
  supported originalObs = false ->
  convertValue val originalObs finalObs T outUnit = ret None.
Proof.
  unfold supported. intros H.
  repeat (apply orb_false_elim in H; destruct H as [H ?]).
  unfold convertValue, convertValue_with.
  repeat match goal with E : (_ =? _) = false |- _ => rewrite E; clear E end.
  reflexivity.
Qed.

Lemma convertValue_unsupported_target (k : kind) (val : Quantity) (finalObs : string)
    (T : R) (outUnit : option Unit) :
  supported finalObs = false ->
  convertValue val (code k) finalObs T outUnit = raise NotImplementedError.
Proof.
  unfold supported. intros H.
  repeat (apply orb_false_elim in H; destruct H as [H ?]).
  unfold convertValue, convertValue_with.
  destruct k; simpl;
    repeat match goal with E : (_ =? _) = false |- _ => rewrite E; clear E end;
    reflexivity.
Qed.

(** C6. With a source code outside the four kinds, here ["kd"],
    [convertValue] raises nothing: no branch of the outer chain is
    taken and the call returns [None]. *)
Theorem convertValue_unknown_source_returns_None (val : Quantity) (T : R)
    (outUnit : option Unit) :
  convertValue val "kd" "dg" T outUnit = ret None.
Proof.
  now apply convertValue_unsupported_source.
Qed.

(** ** The degenerate branch *)

(** Both degenerate branches of [convertValue]. *)
Lemma convertValue_below_threshold (k : kind) (val : Quantity) (T : R)
    (outUnit : option Unit) :
  k = Ki \/ k = Ic50 ->
  udim (unit val) = dim_concentration ->
  root_mag val < root_mag threshold ->
  convertValue val (code k) "dg" T outUnit =
    ret (Some (of_unit 0 (target_unit Dg outUnit))) /\
  convertValue val (code k) "pic50" T outUnit =
    ret (Some (of_unit (-1e15) (target_unit Pic50 outUnit))).
Proof.
  intros Hk Hdim Hlt.
  assert (Hq : qlt val threshold = ret true) by now apply qlt_below.
  assert (Hm : qto val molar = ret (mkQ (mag val * uscale (unit val) / uscale molar) molar))
    by now apply qto_same_dim.
  assert (Hq' : qlt (mkQ (mag val * uscale (unit val) / uscale molar) molar) threshold = ret true).
  { apply qlt_below; [reflexivity|]. unfold root_mag in *. simpl in *. lra. }
  unfold convertValue, convertValue_with.
  rewrite (default_unit_code Dg), (default_unit_code Pic50).
  destruct Hk as [-> | ->]; simpl code; codes;
    rewrite ?Hm, ?bind_ret, ?Hq, ?Hq'; split; reflexivity.
Qed.

(** C3. A concentration strictly below 1e-15 molar, given as "ki" or
    "ic50", converts to exactly 0 in the target unit when the target is
    "dg" and to exactly -1e15 in the target unit when it is "pic50",
    whatever the temperature. *)
Theorem convertValue_degenerate (k : kind) (val : Quantity) (T : R)
    (outUnit : option Unit) :
  k = Ki \/ k = Ic50 ->
  udim (unit val) = dim_concentration ->
  root_mag val < root_mag threshold ->
  convertValue val (code k) "dg" T outUnit =
    ret (Some (of_unit 0 (target_unit Dg outUnit))) /\
  convertValue val (code k) "pic50" T outUnit =
    ret (Some (of_unit (-1e15) (target_unit Pic50 outUnit))).
Proof. apply convertValue_below_threshold. Qed.

Lemma convertValue_degenerate_witness :
  convertValue (mkQ 1e-7 nanomolar) (code Ki) "dg" 300 None =
    ret (Some (of_unit 0 kilocalories_per_mole)) /\
  convertValue (mkQ 1e-7 nanomolar) (code Ki) "pic50" 300 None =
    ret (Some (of_unit (-1e15) dimensionless)).
Proof.
  apply (convertValue_degenerate Ki (mkQ 1e-7 nanomolar) 300 None).
  - now left.
  - reflexivity.
  - rewrite root_mag_threshold. unfold root_mag. simpl. lra.
Defined.

(** ** The output unit *)

Lemma qlt_false_inv (a b : Quantity) :
  qlt a b = ret false -> root_mag b <= root_mag a.
Proof.
  unfold qlt. destruct (Dim_eqb _ _); [|discriminate].
  destruct (Rlt_dec _ _); [discriminate|]. intros _. lra.
Qed.

Lemma qto_molar_root_mag (q m : Quantity) :
  qto q molar = ret m -> root_mag m = root_mag q.
Proof.
  unfold qto. destruct (Dim_eqb _ _); [|discriminate].
  intros E. injection E as <-. unfold root_mag. simpl. lra.
Qed.

(** Takes a successful run of a conversion apart, one statement at a
    time. *)
Ltac py_inv H :=
  repeat first
    [ progress cbn [bind ret raise as_unit default_unit] in H
    | match type of H with
      | bind ?c _ = _ =>
          let E := fresh "E" in destruct c eqn:E
      | match ?c with inl _ => _ | inr _ => _ end = _ =>
          let E := fresh "E" in destruct c eqn:E
      | (if ?b then _ else _) = _ =>
          let E := fresh "E" in destruct b eqn:E
      | inl _ = _ => discriminate H
      end ].

Lemma convertValue_unit (src dst : kind) (v : Quantity) (T : R) (u : Unit) (q : Quantity) :
  convertValue v (code src) (code dst) T (Some u) = ret (Some q) ->
  unit q <> u ->
  (src = Ki \/ src = Ic50) /\ dst = Pic50 /\ root_mag threshold <= root_mag v.
Proof.
  unfold convertValue, convertValue_with. intros H Hu.
  destruct src, dst; simpl code in H; revert H; codes; intros H; py_inv H;
    try (injection H as <-; exfalso; apply Hu; simpl;
         eauto using qto_unit; fail).
  - split; [now left|]. split; [reflexivity|]. now apply qlt_false_inv.
  - split; [now right|]. split; [reflexivity|].
    match goal with
    | E : qto v molar = _ |- _ => rewrite <- (qto_molar_root_mag _ _ E)
    end.
    now apply qlt_false_inv.
Qed.

Lemma np_log_molar (val : Quantity) :
  udim (unit val) = dim_concentration ->
  np_log (q_div_unit val molar) =
  ret (mkQ (ln (mag val * (uscale (unit val) / uscale molar))) dimensionless).
Proof.
  intros Hdim. unfold np_log, q_div_unit, unit_div. simpl udim. rewrite Hdim.
  reflexivity.
Qed.

Lemma qlt_threshold_false (val : Quantity) :
  udim (unit val) = dim_concentration ->
  root_mag threshold <= root_mag val ->
  qlt val threshold = ret false.
Proof. intros Hdim Hge. now apply qlt_not_below. Qed.

Lemma qlt_molar_threshold_false (val : Quantity) :
  root_mag threshold <= root_mag val ->
  qlt (mkQ (mag val * uscale (unit val) / uscale molar) molar) threshold = ret false.
Proof.
  intros Hge. apply qlt_not_below; [reflexivity|].
  unfold root_mag in *. simpl in *. lra.
Qed.

(** From a concentration to the negative-log potency. *)
Lemma convertValue_concentration_to_pic50 (k : kind) (val : Quantity) (T : R)
    (outUnit : option Unit) :
  k = Ki \/ k = Ic50 ->
  udim (unit val) = dim_concentration ->
  root_mag threshold <= root_mag val ->
  convertValue val (code k) "pic50" T outUnit =
  ret (Some (mkQ (- ln (mag val * (uscale (unit val) / uscale molar)) / ln10)
                 dimensionless)).
Proof.
  intros Hk Hdim Hge. unfold convertValue, convertValue_with.
  destruct Hk as [-> | ->]; simpl code; codes.
  - rewrite (qlt_threshold_false _ Hdim Hge), bind_ret.
    rewrite (np_log_molar _ Hdim), bind_ret, qdivf_ln10. reflexivity.
  - rewrite (qto_same_dim val molar Hdim), bind_ret.
    rewrite (qlt_molar_threshold_false _ Hge), bind_ret.
    rewrite (np_log_molar _ Hdim), bind_ret, qdivf_ln10. reflexivity.
Qed.

(** C10. A "ki" or "ic50" value at or above 1e-15 molar converts to
    "pic50" as the dimensionless number -ln(val / 1 molar) / ln 10,
    whatever [outUnit] is: the requested unit is not applied.  On every
    other path of the 4x4 matrix a returned quantity carries the
    requested unit. *)
Theorem convertValue_pic50_ignores_outUnit (k : kind) (val : Quantity) (T : R) :
  k = Ki \/ k = Ic50 ->
  udim (unit val) = dim_concentration ->
  root_mag threshold <= root_mag val ->
  (forall outUnit : option Unit,
     convertValue val (code k) "pic50" T outUnit =
     ret (Some (mkQ (- ln (mag val * (uscale (unit val) / uscale molar)) / ln10)
                    dimensionless))) /\
  (forall (src dst : kind) (v : Quantity) (u : Unit) (q : Quantity),
     convertValue v (code src) (code dst) T (Some u) = ret (Some q) ->
     unit q <> u ->
     (src = Ki \/ src = Ic50) /\ dst = Pic50 /\ root_mag threshold <= root_mag v).
Proof.
  intros Hk Hdim Hge. split.
  - intros outUnit. now apply convertValue_concentration_to_pic50.
  - intros. eapply convertValue_unit; eassumption.
Qed.

Lemma convertValue_pic50_ignores_outUnit_witness :
  (forall outUnit : option Unit,
     convertValue (mkQ 5 nanomolar) (code Ki) "pic50" 300 outUnit =
     ret (Some (mkQ (- ln (5 * (uscale nanomolar / uscale molar)) / ln10)
                    dimensionless))) /\
  (forall (src dst : kind) (v : Quantity) (u : Unit) (q : Quantity),
     convertValue v (code src) (code dst) 300 (Some u) = ret (Some q) ->
     unit q <> u ->
     (src = Ki \/ src = Ic50) /\ dst = Pic50 /\ root_mag threshold <= root_mag v).
Proof.
  apply (convertValue_pic50_ignores_outUnit Ki (mkQ 5 nanomolar) 300).
  - now left.
  - reflexivity.
  - rewrite root_mag_threshold. unfold root_mag. simpl. lra.
Defined.

(** ** The degenerate branch of the error propagation *)

Lemma root_mag_qscale (x : R) (q : Quantity) : root_mag (qscale x q) = x * root_mag q.
Proof. unfold root_mag, qscale. simpl. ring. Qed.

Lemma fdivq_nonzero (x : R) (q : Quantity) :
  mag q <> 0 -> fdivq x q = ret (mkQ (x / mag q) (unit_div dimensionless (unit q))).
Proof.
  intros H. unfold fdivq. destruct (Req_dec_T (mag q) 0); [contradiction|reflexivity].
Qed.

(** C4, as the code has it. The test that guards the derivative
    1/(val ln 10) is on val ln 10: when val ln 10 is strictly below
    1e-15 molar, the propagated error of a "ki" or "ic50" value on the
    "pic50" scale is the saturating +1e15 in the target unit, for every
    error value (whose unit is not even looked at) and temperature. *)
Theorem convertError_degenerate (k : kind) (eVal val : Quantity) (T : R)
    (outUnit : option Unit) :
  k = Ki \/ k = Ic50 ->
  udim (unit val) = dim_concentration ->
  ln10 * root_mag val < root_mag threshold ->
  convertError eVal val (code k) "pic50" T outUnit =
  ret (Some (of_unit 1e15 (target_unit Pic50 outUnit))).
Proof.
  intros Hk Hdim Hlt.
  assert (Hq : qlt (qscale ln10 val) threshold = ret true).
  { apply qlt_below; [exact Hdim|]. now rewrite root_mag_qscale. }
  unfold convertError, convertError_with. rewrite (default_unit_code Pic50).
  destruct Hk as [-> | ->]; simpl code; codes; rewrite Hq; reflexivity.
Qed.

Lemma convertError_degenerate_witness :
  convertError (mkQ 1 kilocalories_per_mole) (mkQ 1e-7 nanomolar) (code Ic50) "pic50" 300 None =
  ret (Some (of_unit 1e15 dimensionless)).
Proof.
  apply (convertError_degenerate Ic50 (mkQ 1 kilocalories_per_mole) (mkQ 1e-7 nanomolar) 300 None).
  - now right.
  - reflexivity.
  - rewrite root_mag_threshold. unfold root_mag. simpl.
    assert (H : ln10 < 10).
    { unfold ln10. apply exp_lt_inv. rewrite exp_ln by lra.
      pose proof (exp_ineq1 10). lra. }
    lra.
Defined.

(** C4, counterexample. A "ki" value of 5e-16 molar is strictly below
    1e-15 molar, yet its error is not the saturating 1e15: val ln 10 is
    above the bound, so the derivative formula is evaluated. *)
Lemma convertError_below_threshold_not_saturated :
  root_mag (mkQ 5e-16 molar) < root_mag threshold /\
  convertError (mkQ 1e-16 molar) (mkQ 5e-16 molar) "ki" "pic50" 300 None =
    ret (Some (mkQ (round2 (1 / (ln10 * 5e-16) * 1e-16 * (1 / 1000 * 1000) / 1))
                   dimensionless)) /\
  convertError (mkQ 1e-16 molar) (mkQ 5e-16 molar) "ki" "pic50" 300 None <>
    ret (Some (of_unit 1e15 dimensionless)).
Proof.
  pose proof ln10_gt_2 as Hln.
  assert (Hrun : convertError (mkQ 1e-16 molar) (mkQ 5e-16 molar) "ki" "pic50" 300 None =
    ret (Some (mkQ (round2 (1 / (ln10 * 5e-16) * 1e-16 * (1 / 1000 * 1000) / 1))
                   dimensionless))).
  { unfold convertError, convertError_with. codes.
    rewrite qlt_not_below; [|reflexivity|].
    2:{ rewrite root_mag_qscale, root_mag_threshold. unfold root_mag. simpl. nra. }
    rewrite bind_ret. cbv iota.
    rewrite fdivq_nonzero by (simpl; nra).
    reflexivity. }
  split; [rewrite root_mag_threshold; unfold root_mag; simpl; lra|].
  split; [exact Hrun|].
  rewrite Hrun. intros E. injection E as E.
  pose proof (round2_near (1 / (ln10 * 5e-16) * 1e-16 * (1 / 1000 * 1000) / 1)) as Hr.
  assert (Hx : 1 / (ln10 * 5e-16) * 1e-16 * (1 / 1000 * 1000) / 1 < 1).
  { replace (1 / (ln10 * 5e-16) * 1e-16 * (1 / 1000 * 1000) / 1) with (/ (5 * ln10))
      by (field; lra).
    rewrite <- Rinv_1. apply Rinv_lt_contravar; lra. }
  lra.
Qed.

(** ** Free energy and concentration *)

Lemma kBT_nonzero (T : R) : T <> 0 -> mag (kBT T) <> 0.
Proof.
  intros HT. simpl. pose proof gas_constant_pos.
  apply Rmult_integral_contrapositive_currified; lra.
Qed.

Lemma qdiv_nonzero (a b : Quantity) :
  mag b <> 0 -> qdiv a b = ret (mkQ (mag a / mag b) (unit_div (unit a) (unit b))).
Proof.
  intros H. unfold qdiv. destruct (Req_dec_T (mag b) 0); [contradiction|reflexivity].
Qed.

Lemma returned_eq (m m' : R) (u : Unit) :
  m = m' -> ret (Some (mkQ m u)) = ret (Some (mkQ m' u)) :> py (option Quantity).
Proof. now intros ->. Qed.

(** Unfolds the arithmetic of quantities down to the real numbers. *)
Ltac magnitudes :=
  unfold qround, qmul, qneg, kBT, neg_kBT, q_mul_unit, q_div_unit, qscale,
    BOLTZMANN, of_unit, root_mag;
  cbn [mag unit uscale udim unit_mul unit_div joule_per_mole_per_kelvin
       joule_per_mole kelvin dimensionless].

(** From a concentration to the free energy: +R T ln(K / 1 molar). *)
Lemma convertValue_concentration_to_dg (k : kind) (val : Quantity) (T : R)
    (outUnit : option Unit) :
  k = Ki \/ k = Ic50 ->
  udim (unit val) = dim_concentration ->
  root_mag threshold <= root_mag val ->
  udim (target_unit Dg outUnit) = dim_energy_per_mole ->
  convertValue val (code k) "dg" T outUnit =
  ret (Some (mkQ (round2 (gas_constant * T * ln (root_mag val / uscale molar)
                          / uscale (target_unit Dg outUnit)))
                 (target_unit Dg outUnit))).
Proof.
  intros Hk Hdim Hge Hout.
  unfold convertValue, convertValue_with. rewrite (default_unit_code Dg).
  destruct Hk as [-> | ->]; simpl code; codes.
  - rewrite (qlt_threshold_false _ Hdim Hge), bind_ret.
    rewrite (np_log_molar _ Hdim), bind_ret. cbn [as_unit bind ret].
    rewrite qto_same_dim by (rewrite Hout; reflexivity).
    cbn [bind ret]. magnitudes. apply returned_eq. f_equal.
    replace (mag val * uscale (unit val) / uscale molar)
      with (mag val * (uscale (unit val) / uscale molar)) by (unfold Rdiv; ring).
    unfold Rdiv. rewrite Rinv_1. ring.
  - rewrite (qlt_threshold_false _ Hdim Hge), bind_ret.
    rewrite (qto_same_dim val molar Hdim), bind_ret.
    unfold np_log, q_div_unit, unit_div. cbn [udim unit mag molar].
    change (Dim_eqb (dim_div dim_concentration dim_concentration) dim_one) with true.
    cbn [as_unit bind ret].
    rewrite qto_same_dim by (rewrite Hout; reflexivity).
    cbn [bind ret]. magnitudes. apply returned_eq. f_equal.
    replace (mag val * uscale (unit val) / uscale molar * (uscale molar / uscale molar))
      with (mag val * uscale (unit val) / uscale molar) by (simpl; field; lra).
    unfold Rdiv. rewrite Rinv_1. ring.
Qed.

(** From the free energy to a concentration: exp(-dG / (R T)) molar. *)
Lemma convertValue_dg_to_concentration (k : kind) (dg : Quantity) (T : R)
    (outUnit : option Unit) :
  k = Ki \/ k = Ic50 ->
  udim (unit dg) = dim_energy_per_mole ->
  T <> 0 ->
  udim (target_unit k outUnit) = dim_concentration ->
  convertValue dg "dg" (code k) T outUnit =
  ret (Some (mkQ (exp (- root_mag dg / (gas_constant * T)) * uscale molar
                  / uscale (target_unit k outUnit))
                 (target_unit k outUnit))).
Proof.
  intros Hk Hdim HT Hout. pose proof gas_constant_pos as Hg.
  unfold convertValue, convertValue_with. rewrite (default_unit_code k).
  destruct Hk as [-> | ->]; simpl code; codes;
    rewrite (qdiv_nonzero _ _ (kBT_nonzero T HT)), bind_ret;
    unfold np_exp; cbn [udim unit unit_div qneg]; rewrite Hdim;
    change (Dim_eqb (dim_div dim_energy_per_mole (udim (unit (kBT T)))) dim_one) with true;
    cbn [as_unit bind ret];
    rewrite qto_same_dim by (rewrite Hout; reflexivity);
    cbn [bind ret]; magnitudes; apply returned_eq;
    rewrite Rmult_1_l; do 3 f_equal; field; lra.
Qed.

(** C1, as the code has it. For a "ki" or "ic50" concentration of at
    least 1e-15 molar and every temperature, the free energy returned is
    +R T ln(val / 1 molar) in the target unit, rounded to two decimals;
    for a free energy and a non-zero temperature, the concentration
    returned is exp(-dg / (R T)) molar in the target unit. *)
Theorem convertValue_free_energy_relation (k : kind) (val dg : Quantity) (T : R)
    (unitDg unitK : option Unit) :
  k = Ki \/ k = Ic50 ->
  udim (unit val) = dim_concentration ->
  root_mag threshold <= root_mag val ->
  udim (target_unit Dg unitDg) = dim_energy_per_mole ->
  udim (unit dg) = dim_energy_per_mole ->
  udim (target_unit k unitK) = dim_concentration ->
  convertValue val (code k) "dg" T unitDg =
    ret (Some (mkQ (round2 (gas_constant * T * ln (root_mag val / uscale molar)
                            / uscale (target_unit Dg unitDg)))
                   (target_unit Dg unitDg))) /\
  (T <> 0 ->
   convertValue dg "dg" (code k) T unitK =
     ret (Some (mkQ (exp (- root_mag dg / (gas_constant * T)) * uscale molar
                     / uscale (target_unit k unitK))
                    (target_unit k unitK)))).
Proof.
  intros Hk Hval Hge HoutDg Hdg HoutK. split.
  - now apply convertValue_concentration_to_dg.
  - intros HT. now apply convertValue_dg_to_concentration.
Qed.

Lemma convertValue_free_energy_relation_witness :
  (convertValue (mkQ 1 nanomolar) (code Ki) "dg" 0 None =
     ret (Some (mkQ (round2 (gas_constant * 0 * ln (root_mag (mkQ 1 nanomolar) / uscale molar)
                             / uscale kilocalories_per_mole))
                    kilocalories_per_mole))) /\
  (convertValue (mkQ 1 nanomolar) (code Ki) "dg" 300 None =
     ret (Some (mkQ (round2 (gas_constant * 300 * ln (root_mag (mkQ 1 nanomolar) / uscale molar)
                             / uscale kilocalories_per_mole))
                    kilocalories_per_mole)) /\
   convertValue (mkQ (-10) kilocalories_per_mole) "dg" (code Ki) 300 None =
     ret (Some (mkQ (exp (- root_mag (mkQ (-10) kilocalories_per_mole) / (gas_constant * 300))
                     * uscale molar / uscale nanomolar)
                    nanomolar))).
Proof.
  assert (Hge : root_mag threshold <= root_mag (mkQ 1 nanomolar)).
  { rewrite root_mag_threshold. unfold root_mag. simpl. lra. }
  split.
  - apply (convertValue_free_energy_relation Ki (mkQ 1 nanomolar)
             (mkQ (-10) kilocalories_per_mole) 0 None None
             (or_introl eq_refl) eq_refl Hge eq_refl eq_refl eq_refl).
  - destruct (convertValue_free_energy_relation Ki (mkQ 1 nanomolar)
                (mkQ (-10) kilocalories_per_mole) 300 None None
                (or_introl eq_refl) eq_refl Hge eq_refl eq_refl eq_refl) as [Hto Hfrom].
    split; [exact Hto|]. apply Hfrom. lra.
Defined.

Lemma ln_nanomolar_lt : ln (root_mag (mkQ 1 nanomolar) / uscale molar) < -2.
Proof.
  unfold root_mag. simpl.
  apply exp_lt_inv. rewrite exp_ln by lra.
  replace (-2) with (Ropp 2) by lra. rewrite exp_Ropp.
  pose proof exp_2_lt_10 as H2. pose proof (exp_pos 2) as Hp.
  apply Rlt_trans with (/ 10); [lra|].
  apply Rinv_lt_contravar; [nra|exact H2].
Qed.

Lemma qdiv_by_zero (a b : Quantity) : mag b = 0 -> qdiv a b = raise ZeroDivisionError.
Proof.
  intros H. unfold qdiv. destruct (Req_dec_T (mag b) 0); [reflexivity|contradiction].
Qed.

(** C1, counterexample. For 1 nanomolar at 300 K the free energy
    returned is negative (R T ln(1e-9), about -12.35 kcal/mol), whereas
    -R T ln(val / 1 molar) is positive: the two differ.  And at a
    temperature of 0 the way back divides by zero. *)
Lemma convertValue_concentration_to_dg_sign :
  root_mag threshold <= root_mag (mkQ 1 nanomolar) /\
  convertValue (mkQ 1 nanomolar) "ki" "dg" 300 None <>
    ret (Some (spec_dg_of_concentration (mkQ 1 nanomolar) 300 kilocalories_per_mole)) /\
  convertValue (mkQ (-10) kilocalories_per_mole) "dg" "ki" 0 None = raise ZeroDivisionError.
Proof.
  assert (Hge : root_mag threshold <= root_mag (mkQ 1 nanomolar)).
  { rewrite root_mag_threshold. unfold root_mag. simpl. lra. }
  split; [exact Hge|]. split.
  2:{ unfold convertValue, convertValue_with. codes.
      rewrite qdiv_by_zero; [reflexivity|]. simpl. ring. }
  change "ki" with (code Ki).
  rewrite (convertValue_concentration_to_dg Ki (mkQ 1 nanomolar) 300 None
             (or_introl eq_refl) eq_refl Hge eq_refl).
  unfold spec_dg_of_concentration. cbn [target_unit natural_unit].
  intros E. injection E as E.
  match type of E with
  | round2 ?a = round2 ?b =>
      pose proof (round2_near a) as H1; pose proof (round2_near b) as H2
  end.
  match type of E with
  | context [ln ?t] => set (y := ln t) in *
  end.
  assert (Hln : y < -2) by exact ln_nanomolar_lt.
  rewrite E in H1. unfold gas_constant in *. simpl in *. lra.
Qed.

(** ** Round trips *)

Lemma Rpower_10_neg_nat (n : nat) : Rpower 10 (- INR n) = / 10 ^ n.
Proof.
  rewrite Rpower_Ropp, Rpower_pow by lra. reflexivity.
Qed.

Lemma Rpower_10_neg_15 : Rpower 10 (-15) = 1e-15.
Proof.
  replace (-15) with (- INR 15) by (simpl; lra).
  rewrite Rpower_10_neg_nat. simpl. lra.
Qed.

Lemma Rpower_10_neg_16 : Rpower 10 (-16) = 1e-16.
Proof.
  replace (-16) with (- INR 16) by (simpl; lra).
  rewrite Rpower_10_neg_nat. simpl. lra.
Qed.

Lemma Rpower_10_ln (r : R) : 0 < r -> Rpower 10 (ln r / ln10) = r.
Proof.
  intros Hr. unfold Rpower. fold ln10.
  replace (ln r / ln10 * ln10) with (ln r) by (field; apply ln10_neq_0).
  now apply exp_ln.
Qed.

Lemma ln_Rpower_10 (y : R) : ln (Rpower 10 y) / ln10 = y.
Proof.
  unfold Rpower. rewrite ln_exp. fold ln10. field. apply ln10_neq_0.
Qed.

(** Pairs converted by a change of unit alone. *)
Lemma convertValue_unit_change (A B : kind) (val : Quantity) (T : R)
    (outUnit : option Unit) :
  A = B \/ ((A = Ki \/ A = Ic50) /\ (B = Ki \/ B = Ic50)) ->
  convertValue val (code A) (code B) T outUnit =
  (r <- qto val (target_unit B outUnit) ;; ret (Some r)).
Proof.
  intros [-> | [[-> | ->] [-> | ->]]];
    try apply convertValue_same_kind;
    unfold convertValue, convertValue_with;
    (rewrite (default_unit_code Ki) || rewrite (default_unit_code Ic50));
    reflexivity.
Qed.

(** From the negative-log potency to a concentration: 10^(-p) molar. *)
Lemma convertValue_pic50_to_concentration (k : kind) (val : Quantity) (T : R)
    (outUnit : option Unit) :
  k = Ki \/ k = Ic50 ->
  udim (unit val) = dim_one ->
  udim (target_unit k outUnit) = dim_concentration ->
  convertValue val "pic50" (code k) T outUnit =
  ret (Some (mkQ (Rpower 10 (- root_mag val) * uscale molar
                  / uscale (target_unit k outUnit))
                 (target_unit k outUnit))).
Proof.
  intros Hk Hdim Hout.
  unfold convertValue, convertValue_with. rewrite (default_unit_code k).
  destruct Hk as [-> | ->]; simpl code; codes;
    unfold rpow; cbn [qneg unit]; rewrite Hdim; rewrite Dim_eqb_refl;
    cbn [as_unit bind ret];
    rewrite qto_same_dim by (rewrite Hout; reflexivity);
    cbn [bind ret]; magnitudes; apply returned_eq;
    rewrite Rmult_1_r; do 3 f_equal; ring.
Qed.

Lemma round_trip_unit_change (A B : kind) (m : R) (T : R) :
  A = B \/ ((A = Ki \/ A = Ic50) /\ (B = Ki \/ B = Ic50)) ->
  udim (natural_unit A) = udim (natural_unit B) ->
  uscale (natural_unit A) <> 0 ->
  uscale (natural_unit B) <> 0 ->
  round_trip A B (mkQ m (natural_unit A)) T = ret (Some (mkQ m (natural_unit A))).
Proof.
  intros Hp Hd HA HB. unfold round_trip.
  rewrite (convertValue_unit_change A B) by exact Hp.
  cbn [target_unit]. rewrite qto_same_dim by exact Hd.
  cbn [bind ret mag unit].
  rewrite (convertValue_unit_change B A)
    by (destruct Hp as [-> | [? ?]]; [now left | now right]).
  cbn [target_unit]. rewrite qto_same_dim by (symmetry; exact Hd).
  cbn [bind ret mag unit]. apply returned_eq. now field.
Qed.

Lemma round_trip_concentration_pic50 (k : kind) (m : R) (T : R) :
  k = Ki \/ k = Ic50 ->
  root_mag threshold <= root_mag (mkQ m nanomolar) ->
  round_trip k Pic50 (mkQ m nanomolar) T = ret (Some (mkQ m nanomolar)).
Proof.
  intros Hk Hge. unfold round_trip. change (code Pic50) with "pic50".
  rewrite (convertValue_concentration_to_pic50 k (mkQ m nanomolar) T None Hk eq_refl Hge).
  cbn [bind ret mag unit].
  rewrite (convertValue_pic50_to_concentration k _ T (Some nanomolar) Hk) by reflexivity.
  cbn [target_unit]. apply returned_eq.
  rewrite root_mag_threshold in Hge. unfold root_mag in *. cbn [mag unit] in *.
  simpl uscale in *.
  replace (- (- ln (m * (1000 * 1e-9 / 1000)) / ln10 * 1))
    with (ln (m * (1000 * 1e-9 / 1000)) / ln10) by (field; apply ln10_neq_0).
  rewrite Rpower_10_ln by lra. field.
Qed.

Lemma round_trip_pic50_concentration (k : kind) (m : R) (T : R) :
  k = Ki \/ k = Ic50 ->
  m <= 15 ->
  round_trip Pic50 k (mkQ m dimensionless) T = ret (Some (mkQ m dimensionless)).
Proof.
  intros Hk Hm. unfold round_trip. change (code Pic50) with "pic50".
  assert (Hn : target_unit k None = nanomolar) by (destruct Hk as [-> | ->]; reflexivity).
  rewrite (convertValue_pic50_to_concentration k _ T None Hk)
    by (try rewrite Hn; reflexivity).
  rewrite Hn. cbn [bind ret mag unit].
  assert (Hp : 1e-15 <= Rpower 10 (- m)).
  { rewrite <- Rpower_10_neg_15. apply Rle_Rpower; lra. }
  assert (Hroot : root_mag (mkQ m dimensionless) = m) by (unfold root_mag; simpl; lra).
  rewrite Hroot.
  rewrite (convertValue_concentration_to_pic50 k _ T (Some dimensionless) Hk);
    [ | reflexivity | ].
  - apply returned_eq. cbn [mag unit]. simpl uscale.
    replace (Rpower 10 (- m) * 1000 / (1000 * 1e-9) * (1000 * 1e-9 / 1000))
      with (Rpower 10 (- m)) by (field; lra).
    replace (- ln (Rpower 10 (- m)) / ln10) with (- (ln (Rpower 10 (- m)) / ln10))
      by (field; apply ln10_neq_0).
    rewrite ln_Rpower_10. ring.
  - rewrite root_mag_threshold. unfold root_mag. cbn [mag unit]. simpl uscale.
    replace (Rpower 10 (- m) * 1000 / (1000 * 1e-9) * (1000 * 1e-9))
      with (Rpower 10 (- m) * 1000) by (field; lra).
    lra.
Qed.

(** X21. Between kinds that do not cross from the
    free energy to the other three (the same kind twice, or any two of
    "ki", "ic50", "pic50"), a value in the natural unit of its kind, with
    every concentration involved at or above 1e-15 molar, is reproduced
    by the conversion there and back: in real arithmetic, exactly. *)
Theorem round_trip_exact (A B : kind) (val : Quantity) (T : R) :
  unit val = natural_unit A ->
  no_dg_crossing A B = true ->
  in_range A B val ->
  round_trip A B val T = ret (Some val).
Proof.
  destruct val as [m u]. cbn [unit]. intros -> Hpair Hrange.
  destruct A, B; try discriminate Hpair; cbn [in_range mag] in Hrange;
    try (apply round_trip_unit_change;
         [ first [ now left | right; split; (now left) || (now right) ]
         | reflexivity | simpl; lra | simpl; lra ]).
  - apply (round_trip_concentration_pic50 Ki); [now left | exact Hrange].
  - apply (round_trip_concentration_pic50 Ic50); [now right | exact Hrange].
  - apply (round_trip_pic50_concentration Ki); [now left | exact Hrange].
  - apply (round_trip_pic50_concentration Ic50); [now right | exact Hrange].
Qed.

Lemma round_trip_exact_witness :
  round_trip Ki Pic50 (mkQ 5 nanomolar) 300 = ret (Some (mkQ 5 nanomolar)).
Proof.
  apply (round_trip_exact Ki Pic50 (mkQ 5 nanomolar) 300).
  - reflexivity.
  - reflexivity.
  - simpl. rewrite root_mag_threshold. unfold root_mag. simpl. lra.
Defined.

(** The bound on the way is needed: a negative-log potency of 16
    converts to 1e-16 molar, which is below the bound of the way back,
    and the round trip through "ki" gives -1e15, not 16. *)
Lemma round_trip_pic50_16 :
  round_trip Pic50 Ki (mkQ 16 dimensionless) 300 = ret (Some (mkQ (-1e15) dimensionless)) /\
  ~ reproduces (1 / 100) (mkQ 16 dimensionless)
      (round_trip Pic50 Ki (mkQ 16 dimensionless) 300).
Proof.
  assert (Hrun : round_trip Pic50 Ki (mkQ 16 dimensionless) 300 =
                 ret (Some (mkQ (-1e15) dimensionless))).
  { unfold round_trip. change (code Pic50) with "pic50".
    rewrite (convertValue_pic50_to_concentration Ki _ 300 None (or_introl eq_refl))
      by reflexivity.
    cbn [bind ret target_unit natural_unit unit].
    apply (convertValue_below_threshold Ki); [now left | reflexivity |].
    rewrite root_mag_threshold. unfold root_mag. cbn [mag unit]. simpl uscale.
    replace (-(16 * 1)) with (-16) by lra. rewrite Rpower_10_neg_16. lra. }
  split; [exact Hrun|].
  rewrite Hrun. intros [q [E [_ Hclose]]]. injection E as <-.
  cbn [mag] in Hclose. unfold Rabs in Hclose.
  destruct (Rcase_abs _) in Hclose; lra.
Qed.

(** ** Rounding *)

Lemma rint_unique (x : R) (z : Z) :
  - (1 / 2) < x - IZR z < 1 / 2 -> rint x = z.
Proof.
  intros Hx. pose proof (rint_near x) as Hr.
  assert (H1 : (rint x < z + 1)%Z) by (apply lt_IZR; rewrite plus_IZR; simpl; lra).
  assert (H2 : (z < rint x + 1)%Z) by (apply lt_IZR; rewrite plus_IZR; simpl; lra).
  lia.
Qed.

Lemma round2_1e15 : round2 1e15 = 1e15.
Proof.
  replace 1e15 with (IZR 100000000000000000 / 100) by lra.
  apply round2_fixes.
Qed.

(** Runs a conversion forward in the goal, one statement at a time. *)
Ltac py_run :=
  repeat first
    [ progress cbn [bind ret raise as_unit round_result]
    | match goal with
      | |- context [bind ?c _] => destruct c
      | |- context [if ?b then _ else _] => is_var b; destruct b
      end ].

Lemma convertValue_rounding (src dst : kind) (val : Quantity) (T : R)
    (outUnit : option Unit) :
  (value_rounds src dst = true ->
   convertValue val (code src) (code dst) T outUnit =
   round_result (convertValue_with unrounded val (code src) (code dst) T outUnit)) /\
  (value_rounds src dst = false ->
   forall rnd : R -> R,
   convertValue_with rnd val (code src) (code dst) T outUnit =
   convertValue_with unrounded val (code src) (code dst) T outUnit).
Proof.
  unfold convertValue, convertValue_with. rewrite (default_unit_code dst).
  split; [intros Hr | intros Hr rnd];
    destruct src, dst; try discriminate Hr; simpl code; codes; py_run;
    try reflexivity;
    unfold qround, of_unit, unrounded; cbn [mag unit]; now rewrite ?round2_0.
Qed.

Lemma convertError_rounding (src dst : kind) (eVal val : Quantity) (T : R)
    (outUnit : option Unit) :
  (error_rounds src dst = true ->
   convertError eVal val (code src) (code dst) T outUnit =
   round_result (convertError_with unrounded eVal val (code src) (code dst) T outUnit)) /\
  (error_rounds src dst = false ->
   forall rnd : R -> R,
   convertError_with rnd eVal val (code src) (code dst) T outUnit =
   convertError_with unrounded eVal val (code src) (code dst) T outUnit).
Proof.
  unfold convertError, convertError_with. rewrite (default_unit_code dst).
  split; [intros Hr | intros Hr rnd];
    destruct src, dst; try discriminate Hr; simpl code; codes; py_run;
    try reflexivity;
    unfold qround, of_unit, unrounded; cbn [mag unit];
    now rewrite ?round2_0, ?round2_1e15.
Qed.

Lemma round_result_two_decimals (r : py (option Quantity)) (q : Quantity) :
  round_result r = ret (Some q) -> two_decimals (mag q).
Proof.
  destruct r as [e | [p|]]; try discriminate.
  intros E. injection E as <-. apply round2_two_decimals.
Qed.

(** C5, as the code has it. [convertValue] rounds to two decimals, in
    the target unit, exactly when the target is "dg" and the source is
    one of "ki", "ic50", "pic50"; "dg" to "dg" and every result of kind
    "ki", "ic50" or "pic50" is returned as computed.  [convertError]
    rounds when the source is "pic50" (whatever the target), and when the
    source is "ki" or "ic50" and the target is "dg" or "pic50"; from
    "dg", and between "ki" and "ic50", it returns the error as computed. *)
Theorem rounding_of_results (src dst : kind) (eVal val : Quantity) (T : R)
    (outUnit : option Unit) :
  (if value_rounds src dst
   then convertValue val (code src) (code dst) T outUnit =
        round_result (convertValue_with unrounded val (code src) (code dst) T outUnit)
   else forall rnd : R -> R,
        convertValue_with rnd val (code src) (code dst) T outUnit =
        convertValue_with unrounded val (code src) (code dst) T outUnit) /\
  (if error_rounds src dst
   then convertError eVal val (code src) (code dst) T outUnit =
        round_result (convertError_with unrounded eVal val (code src) (code dst) T outUnit)
   else forall rnd : R -> R,
        convertError_with rnd eVal val (code src) (code dst) T outUnit =
        convertError_with unrounded eVal val (code src) (code dst) T outUnit).
Proof.
  split.
  - destruct (convertValue_rounding src dst val T outUnit) as [Hyes Hno].
    destruct (value_rounds src dst); auto.
  - destruct (convertError_rounding src dst eVal val T outUnit) as [Hyes Hno].
    destruct (error_rounds src dst); auto.
Qed.

Lemma not_two_decimals_1234 : ~ two_decimals 1.234.
Proof.
  intros [z Hz].
  assert (H : IZR (10 * z) = IZR 1234) by (rewrite mult_IZR; lra).
  apply eq_IZR in H. lia.
Qed.

Lemma round2_0123 : round2 0.123 = 0.12.
Proof.
  unfold round2. rewrite (rint_unique _ 12); lra.
Qed.

(** C5, counterexample. A free energy of 1.234 kcal/mol converted to
    "dg" comes back as 1.234, three decimals; and an error of 0.123 on
    the "pic50" scale converted to "pic50" comes back as 0.12. *)
Lemma rounding_not_by_target_kind :
  convertValue (mkQ 1.234 kilocalories_per_mole) "dg" "dg" 300 None =
    ret (Some (mkQ 1.234 kilocalories_per_mole)) /\
  ~ two_decimals 1.234 /\
  convertError (mkQ 0.123 dimensionless) (mkQ 7 dimensionless) "pic50" "pic50" 300 None =
    ret (Some (mkQ 0.12 dimensionless)) /\
  0.12 <> 0.123.
Proof.
  split; [|split; [exact not_two_decimals_1234|split; [|lra]]].
  - unfold convertValue, convertValue_with. cbn [default_unit]. codes.
    cbn [as_unit bind ret].
    rewrite qto_same_dim by reflexivity. cbn [bind ret mag unit].
    apply returned_eq. simpl. field.
  - unfold convertError, convertError_with. cbn [default_unit]. codes.
    cbn [as_unit bind ret].
    rewrite qto_same_dim by reflexivity. cbn [bind ret mag unit qround].
    apply returned_eq. simpl.
    replace (0.123 * 1 / 1) with 0.123 by field. apply round2_0123.
Qed.

(** ** Identifier resolution *)

Example split_example : split "  3e92 3eml " = ["3e92"; "3eml"].
Proof. reflexivity. Qed.

Lemma no_space_app (a b : string) :
  no_space (a ++ b) = no_space a && no_space b.
Proof.
  induction a as [|c a IH]; simpl; [reflexivity|].
  now rewrite IH, andb_assoc.
Qed.

Lemma flush_tokens (cur : string) (rest : list string) :
  no_space cur = true ->
  Forall (fun t => t <> "" /\ no_space t = true) rest ->
  Forall (fun t => t <> "" /\ no_space t = true) (flush cur rest).
Proof.
  intros Hcur Hrest. destruct cur; simpl; [exact Hrest|].
  constructor; [|exact Hrest]. split; [discriminate|exact Hcur].
Qed.

Lemma split_from_tokens (s cur : string) :
  no_space cur = true ->
  Forall (fun t => t <> "" /\ no_space t = true) (split_from cur s).
Proof.
  revert cur. induction s as [|c s IH]; intros cur Hcur; simpl.
  - now apply flush_tokens.
  - destruct (is_space c) eqn:Hc.
    + apply flush_tokens; [exact Hcur|]. now apply IH.
    + apply IH. rewrite no_space_app, Hcur. simpl. now rewrite Hc.
Qed.

(** The identifiers [split] yields are non-empty and free of white
    space. *)
Lemma split_tokens (s : string) :
  Forall (fun t => t <> "" /\ no_space t = true) (split s).
Proof. now apply split_from_tokens. Qed.

(** C9. When the request fails with a URL error, [findPdbUrl] warns
    once and returns the identifiers of its input joined by newlines,
    with no link text around them, and [findDoiUrl] warns once and
    returns the identifier it was given; neither raises. *)
Theorem network_failure_fallback
    (urlopen : Request -> net) (json_loads : string -> py json)
    (repr_container : json -> string) (pdb doi e1 e2 : string) :
  urlopen (mkRequest "http://www.rcsb.org/pdb/rest/search" (Some (query_text pdb)))
    = NetURLError e1 ->
  urlopen (mkRequest ("https://api.crossref.org/works/" ++ doi) None)
    = NetURLError e2 ->
  findPdbUrl urlopen (Some pdb) =
    (["Could not find PDB " ++ pdb ++ nl ++ e1], ret (join nl (split pdb))) /\
  findDoiUrl urlopen json_loads repr_container doi =
    (["Could not find DOI: " ++ doi ++ nl ++ e2], ret doi).
Proof.
  intros H1 H2. unfold findPdbUrl, findDoiUrl. now rewrite H1, H2.
Qed.

Lemma network_failure_fallback_witness :
  findPdbUrl (fun _ => NetURLError "timed out") (Some "3e92 3eml") =
    (["Could not find PDB 3e92 3eml" ++ nl ++ "timed out"],
     ret ("3e92" ++ nl ++ "3eml")) /\
  findDoiUrl (fun _ => NetURLError "timed out") (fun _ => ret JNull) (fun _ => "")
      "10.1021/ja512751q" =
    (["Could not find DOI: 10.1021/ja512751q" ++ nl ++ "timed out"],
     ret "10.1021/ja512751q").
Proof.
  apply (network_failure_fallback (fun _ => NetURLError "timed out")
           (fun _ => ret JNull) (fun _ => "") "3e92 3eml" "10.1021/ja512751q"
           "timed out" "timed out"); reflexivity.
Defined.




(* ------------------------------------------------------------------ *)
(** * Further properties of the conversions *)

(** ** Codes outside the four kinds *)

Lemma convertError_unsupported_source (eVal val : Quantity) (originalObs finalObs : string)
    (T : R) (outUnit : option Unit) :
  supported originalObs = false ->
  convertError eVal val originalObs finalObs T outUnit = ret None.
Proof.
  unfold supported. intros H.
  repeat (apply orb_false_elim in H; destruct H as [H ?]).
  unfold convertError, convertError_with.
  repeat match goal with E : (_ =? _) = false |- _ => rewrite E; clear E end.
  reflexivity.
Qed.

Lemma convertError_unsupported_target (k : kind) (eVal val : Quantity) (finalObs : string)
    (T : R) (outUnit : option Unit) :
  supported finalObs = false ->
  convertError eVal val (code k) finalObs T outUnit = raise NotImplementedError.
Proof.
  unfold supported. intros H.
  repeat (apply orb_false_elim in H; destruct H as [H ?]).
  unfold convertError, convertError_with.
  destruct k; simpl;
    repeat match goal with E : (_ =? _) = false |- _ => rewrite E; clear E end;
    reflexivity.
Qed.

(** X1. A code outside "dg", "ki", "ic50", "pic50" is treated differently
    on the two sides of [convertValue]: as the target of a supported
    source it raises [NotImplementedError], before the value or the
    output unit is looked at; as the source it makes the call return
    [None], whatever the target. *)
Theorem convertValue_unsupported_code (bad : string) (k : kind) (val : Quantity)
    (finalObs : string) (T : R) (outUnit : option Unit) :
  supported bad = false ->
  convertValue val (code k) bad T outUnit = raise NotImplementedError /\
  convertValue val bad finalObs T outUnit = ret None.
Proof.
  intros H. split.
  - now apply convertValue_unsupported_target.
  - now apply convertValue_unsupported_source.
Qed.

Lemma convertValue_unsupported_code_witness :
  convertValue (mkQ 5 nanomolar) (code Ki) "kd" 300 None = raise NotImplementedError /\
  convertValue (mkQ 5 nanomolar) "kd" "dg" 300 None = ret None.
Proof.
  apply (convertValue_unsupported_code "kd" Ki (mkQ 5 nanomolar) "dg" 300 None).
  reflexivity.
Defined.

(** X2. [convertError] treats a code outside the four kinds as
    [convertValue] does: [NotImplementedError] for such a target of a
    supported source, [None] for such a source. *)
Theorem convertError_unsupported_code (bad : string) (k : kind) (eVal val : Quantity)
    (finalObs : string) (T : R) (outUnit : option Unit) :
  supported bad = false ->
  convertError eVal val (code k) bad T outUnit = raise NotImplementedError /\
  convertError eVal val bad finalObs T outUnit = ret None.
Proof.
  intros H. split.
  - now apply convertError_unsupported_target.
  - now apply convertError_unsupported_source.
Qed.

Lemma convertError_unsupported_code_witness :
  convertError (mkQ 1 nanomolar) (mkQ 5 nanomolar) (code Pic50) "kd" 300 None =
    raise NotImplementedError /\
  convertError (mkQ 1 nanomolar) (mkQ 5 nanomolar) "kd" "dg" 300 None = ret None.
Proof.
  apply (convertError_unsupported_code "kd" Pic50 (mkQ 1 nanomolar) (mkQ 5 nanomolar)
           "dg" 300 None).
  reflexivity.
Defined.

(** ** The unit of what is returned *)

Lemma qdivf_unit (q r : Quantity) (x : R) : qdivf q x = ret r -> unit r = unit q.
Proof.
  unfold qdivf. destruct (Req_dec_T x 0); [discriminate|].
  intros E. injection E as <-. reflexivity.
Qed.

Lemma np_log_unit (q r : Quantity) : np_log q = ret r -> unit r = dimensionless.
Proof.
  unfold np_log. destruct (Dim_eqb _ _); [|discriminate].
  intros E. injection E as <-. reflexivity.
Qed.

(** X3. Without a requested unit, whatever [convertValue] returns is in
    the default unit of the target kind: kilocalories per mole for "dg",
    nanomolar for "ki" and "ic50", dimensionless for "pic50".  This
    holds on all sixteen paths, the one that skips the unit included. *)
Theorem convertValue_default_unit (src dst : kind) (val : Quantity) (T : R)
    (q : Quantity) :
  convertValue val (code src) (code dst) T None = ret (Some q) ->
  unit q = natural_unit dst.
Proof.
  unfold convertValue, convertValue_with. rewrite (default_unit_code dst).
  cbn [target_unit]. intros H.
  destruct src, dst; simpl code in H; revert H; codes; intros H; py_inv H;
    injection H as <-; cbn [natural_unit unit qround of_unit];
    try reflexivity; eauto using qto_unit.
  - match goal with
    | E1 : np_log _ = inr ?l, E2 : qdivf (qneg ?l) _ = inr _ |- _ =>
        rewrite (qdivf_unit _ _ _ E2); exact (np_log_unit _ _ E1)
    end.
  - match goal with
    | E1 : np_log _ = inr ?l, E2 : qdivf (qneg ?l) _ = inr _ |- _ =>
        rewrite (qdivf_unit _ _ _ E2); exact (np_log_unit _ _ E1)
    end.
Qed.

Lemma ln10_lt_10 : ln10 < 10.
Proof.
  unfold ln10. apply exp_lt_inv. rewrite exp_ln by lra.
  pose proof (exp_ineq1 10). lra.
Qed.

(** The saturated branch of [convertError]. *)
Lemma convertError_degenerate_aux (k : kind) (eVal val : Quantity) (T : R)
    (outUnit : option Unit) :
  k = Ki \/ k = Ic50 ->
  udim (unit val) = dim_concentration ->
  ln10 * root_mag val < root_mag threshold ->
  convertError eVal val (code k) (code Pic50) T outUnit =
  ret (Some (of_unit 1e15 (target_unit Pic50 outUnit))).
Proof.
  intros Hk Hdim Hlt.
  assert (Hq : qlt (qscale ln10 val) threshold = ret true).
  { apply qlt_below; [exact Hdim|]. now rewrite root_mag_qscale. }
  unfold convertError, convertError_with. rewrite (default_unit_code Pic50).
  destruct Hk as [-> | ->]; simpl code; codes; rewrite Hq; reflexivity.
Qed.

Lemma convertValue_default_unit_witness :
  unit (of_unit (-1e15) dimensionless) = natural_unit Pic50.
Proof.
  apply (convertValue_default_unit Ki Pic50 (mkQ 1e-7 nanomolar) 300).
  apply (convertValue_below_threshold Ki (mkQ 1e-7 nanomolar) 300 None).
  - now left.
  - reflexivity.
  - rewrite root_mag_threshold. unfold root_mag. simpl. lra.
Defined.

(** X4. Whatever [convertError] returns is in the requested unit, or in
    the default unit of the target kind when none is requested, on all
    sixteen paths: unlike [convertValue], it has no path that skips the
    output unit. *)
Theorem convertError_unit (src dst : kind) (eVal val : Quantity) (T : R)
    (outUnit : option Unit) (q : Quantity) :
  convertError eVal val (code src) (code dst) T outUnit = ret (Some q) ->
  unit q = target_unit dst outUnit.
Proof.
  unfold convertError, convertError_with. rewrite (default_unit_code dst).
  intros H.
  destruct src, dst; simpl code in H; revert H; codes; intros H; py_inv H;
    injection H as <-; cbn [unit qround of_unit];
    try reflexivity; eauto using qto_unit.
Qed.

Lemma convertError_unit_witness :
  unit (of_unit 1e15 kilocalories_per_mole) = target_unit Pic50 (Some kilocalories_per_mole).
Proof.
  apply (convertError_unit Ki Pic50 (mkQ 1 nanomolar) (mkQ 1e-7 nanomolar) 300
           (Some kilocalories_per_mole)).
  change "pic50" with (code Pic50).
  apply (convertError_degenerate_aux Ki).
  - now left.
  - reflexivity.
  - rewrite root_mag_threshold. unfold root_mag. simpl.
    pose proof ln10_lt_10. lra.
Defined.

(** ** Values of the wrong dimension *)

Lemma Dim_eqb_neq (a b : Dim) : a <> b -> Dim_eqb a b = false.
Proof.
  intros H. destruct (Dim_eqb a b) eqn:E; [|reflexivity].
  apply Dim_eqb_eq in E. contradiction.
Qed.

Lemma dim_div_one (a b : Dim) : dim_div a b = dim_one -> a = b.
Proof.
  destruct a, b. unfold dim_div, dim_mul, dim_inv, dim_one. simpl.
  intros E. injection E as ? ? ? ? ?. f_equal; lia.
Qed.

Lemma dim_mul_cancel (a b : Dim) : dim_mul a b = a -> b = dim_one.
Proof.
  destruct a, b. unfold dim_mul, dim_one. simpl.
  intros E. injection E as ? ? ? ? ?. f_equal; lia.
Qed.

Lemma qlt_other_dim (a b : Quantity) :
  udim (unit a) <> udim (unit b) -> qlt a b = raise DimensionalityError.
Proof. intros H. unfold qlt. now rewrite (Dim_eqb_neq _ _ H). Qed.

Lemma np_exp_other_dim (q : Quantity) :
  udim (unit q) <> dim_one -> np_exp q = raise DimensionalityError.
Proof. intros H. unfold np_exp. now rewrite (Dim_eqb_neq _ _ H). Qed.

Lemma rpow_other_dim (x : R) (q : Quantity) :
  udim (unit q) <> dim_one -> rpow x q = raise DimensionalityError.
Proof. intros H. unfold rpow. now rewrite (Dim_eqb_neq _ _ H). Qed.

(** X5. A value whose dimension is not that of its kind (energy per mole
    for "dg", concentration for "ki" and "ic50", none for "pic50") is
    never converted: with a target unit of the right dimension and a
    non-zero temperature, every one of the sixteen paths raises the
    dimensionality error of the unit library. *)
Theorem convertValue_wrong_dimension (src dst : kind) (val : Quantity) (T : R)
    (outUnit : option Unit) :
  udim (unit val) <> kind_dim src ->
  udim (target_unit dst outUnit) = kind_dim dst ->
  T <> 0 ->
  convertValue val (code src) (code dst) T outUnit = raise DimensionalityError.
Proof.
  intros Hval Hout HT.
  unfold convertValue, convertValue_with. rewrite (default_unit_code dst).
  destruct src; cbn [kind_dim] in Hval.
  - (* dg *)
    destruct dst; cbn [kind_dim] in Hout; simpl code; codes; cbn [as_unit bind ret].
    + rewrite qto_other_dim by (rewrite Hout; exact Hval). reflexivity.
    + rewrite (qdiv_nonzero _ _ (kBT_nonzero T HT)), bind_ret.
      rewrite np_exp_other_dim; [reflexivity|].
      cbn [unit udim unit_div qneg]. intros E. apply dim_div_one in E. now apply Hval.
    + rewrite (qdiv_nonzero _ _ (kBT_nonzero T HT)), bind_ret.
      rewrite np_exp_other_dim; [reflexivity|].
      cbn [unit udim unit_div qneg]. intros E. apply dim_div_one in E. now apply Hval.
    + rewrite (qdiv_nonzero _ _ (kBT_nonzero T HT)), bind_ret.
      rewrite qdivf_ln10, bind_ret. cbn [bind ret].
      rewrite qto_other_dim; [reflexivity|].
      cbn [unit udim unit_div]. rewrite Hout. intros E. apply dim_div_one in E.
      now apply Hval.
  - (* ki *)
    destruct dst; cbn [kind_dim] in Hout; simpl code; codes; cbn [as_unit bind ret].
    + rewrite qlt_other_dim by exact Hval. reflexivity.
    + rewrite qto_other_dim by (rewrite Hout; exact Hval). reflexivity.
    + rewrite qto_other_dim by (rewrite Hout; exact Hval). reflexivity.
    + rewrite qlt_other_dim by exact Hval. reflexivity.
  - (* ic50 *)
    destruct dst; cbn [kind_dim] in Hout; simpl code; codes; cbn [as_unit bind ret].
    + rewrite qlt_other_dim by exact Hval. reflexivity.
    + rewrite qto_other_dim by (rewrite Hout; exact Hval). reflexivity.
    + rewrite qto_other_dim by (rewrite Hout; exact Hval). reflexivity.
    + rewrite qto_other_dim by exact Hval. reflexivity.
  - (* pic50 *)
    destruct dst; cbn [kind_dim] in Hout; simpl code; codes; cbn [as_unit bind ret].
    + rewrite qto_other_dim; [reflexivity|].
      rewrite Hout. cbn [unit udim qscale qmul unit_mul].
      intros E. apply dim_mul_cancel in E. now apply Hval.
    + rewrite rpow_other_dim by exact Hval. reflexivity.
    + rewrite rpow_other_dim by exact Hval. reflexivity.
    + rewrite qto_other_dim by (rewrite Hout; exact Hval). reflexivity.
Qed.

Lemma convertValue_wrong_dimension_witness :
  convertValue (mkQ 5 kilocalories_per_mole) (code Ki) (code Dg) 300 None =
  raise DimensionalityError.
Proof.
  apply (convertValue_wrong_dimension Ki Dg (mkQ 5 kilocalories_per_mole) 300 None).
  - discriminate.
  - reflexivity.
  - lra.
Defined.

(** ** Logarithms of concentrations *)

Lemma np_log_to_molar (val : Quantity) :
  udim (unit val) = dim_concentration ->
  np_log (q_div_unit (mkQ (mag val * uscale (unit val) / uscale molar) molar) molar) =
  np_log (q_div_unit val molar).
Proof.
  intros Hdim. rewrite (np_log_molar val Hdim).
  unfold np_log, q_div_unit, unit_div, root_mag. cbn [mag unit udim uscale molar].
  change (Dim_eqb (dim_div dim_concentration dim_concentration) dim_one) with true.
  cbv iota. do 3 f_equal. field.
Qed.

(** ** Free energy and negative-log potency *)

Lemma convertValue_dg_to_pic50 (dg : Quantity) (T : R) (outUnit : option Unit) :
  udim (unit dg) = dim_energy_per_mole ->
  T <> 0 ->
  udim (target_unit Pic50 outUnit) = dim_one ->
  convertValue dg "dg" "pic50" T outUnit =
  ret (Some (mkQ (root_mag dg / (gas_constant * T) / ln10
                  / uscale (target_unit Pic50 outUnit))
                 (target_unit Pic50 outUnit))).
Proof.
  intros Hdim HT Hout. pose proof gas_constant_pos as Hg. pose proof ln10_neq_0 as Hl.
  unfold convertValue, convertValue_with. rewrite (default_unit_code Pic50). codes.
  rewrite (qdiv_nonzero _ _ (kBT_nonzero T HT)), bind_ret.
  rewrite qdivf_ln10, bind_ret. cbn [as_unit bind ret].
  rewrite qto_same_dim by (cbn [unit udim unit_div]; rewrite Hdim, Hout; reflexivity).
  cbn [bind ret]. magnitudes. apply returned_eq.
  replace (1 / 1 * 1) with 1 by field.
  replace (T * gas_constant) with (gas_constant * T) by ring.
  unfold Rdiv. rewrite ?Rinv_1. ring.
Qed.

Lemma convertValue_pic50_to_dg (p : Quantity) (T : R) (outUnit : option Unit) :
  udim (unit p) = dim_one ->
  udim (target_unit Dg outUnit) = dim_energy_per_mole ->
  convertValue p "pic50" "dg" T outUnit =
  ret (Some (mkQ (round2 (- (gas_constant * T * ln10 * root_mag p)
                          / uscale (target_unit Dg outUnit)))
                 (target_unit Dg outUnit))).
Proof.
  intros Hdim Hout.
  unfold convertValue, convertValue_with. rewrite (default_unit_code Dg). codes.
  cbn [as_unit bind ret].
  rewrite qto_same_dim
    by (cbn [unit udim qscale qmul unit_mul]; rewrite Hdim, Hout; reflexivity).
  cbn [bind ret]. magnitudes. unfold qneg. magnitudes. apply returned_eq. f_equal.
  unfold Rdiv. rewrite Rinv_1. ring.
Qed.

(** X7. Between the free energy and the negative-log potency the two
    directions are: a free energy dg becomes dg / (R T ln 10) in the
    target unit, unrounded, for a non-zero temperature; a potency p
    becomes -R T ln(10) p in the target unit, rounded to two decimals.
    In particular a free energy of zero has potency zero. *)
Theorem convertValue_potency_relation (dg p : Quantity) (T : R)
    (unitP unitDg : option Unit) :
  udim (unit dg) = dim_energy_per_mole ->
  T <> 0 ->
  udim (target_unit Pic50 unitP) = dim_one ->
  udim (unit p) = dim_one ->
  udim (target_unit Dg unitDg) = dim_energy_per_mole ->
  convertValue dg "dg" "pic50" T unitP =
    ret (Some (mkQ (root_mag dg / (gas_constant * T) / ln10
                    / uscale (target_unit Pic50 unitP))
                   (target_unit Pic50 unitP))) /\
  convertValue p "pic50" "dg" T unitDg =
    ret (Some (mkQ (round2 (- (gas_constant * T * ln10 * root_mag p)
                            / uscale (target_unit Dg unitDg)))
                   (target_unit Dg unitDg))) /\
  (mag dg = 0 ->
   convertValue dg "dg" "pic50" T unitP = ret (Some (mkQ 0 (target_unit Pic50 unitP)))).
Proof.
  intros Hdg HT HoutP Hp HoutDg. split; [|split].
  - now apply convertValue_dg_to_pic50.
  - now apply convertValue_pic50_to_dg.
  - intros Hz. rewrite convertValue_dg_to_pic50 by assumption.
    apply returned_eq. unfold root_mag. rewrite Hz. unfold Rdiv. ring.
Qed.

Lemma convertValue_potency_relation_witness :
  convertValue (mkQ 0 kilocalories_per_mole) "dg" "pic50" 300 None =
    ret (Some (mkQ (root_mag (mkQ 0 kilocalories_per_mole) / (gas_constant * 300) / ln10
                    / uscale dimensionless)
                   dimensionless)) /\
  convertValue (mkQ 9 dimensionless) "pic50" "dg" 300 None =
    ret (Some (mkQ (round2 (- (gas_constant * 300 * ln10 * root_mag (mkQ 9 dimensionless))
                            / uscale kilocalories_per_mole))
                   kilocalories_per_mole)) /\
  (0 = 0 ->
   convertValue (mkQ 0 kilocalories_per_mole) "dg" "pic50" 300 None =
     ret (Some (mkQ 0 dimensionless))).
Proof.
  apply (convertValue_potency_relation (mkQ 0 kilocalories_per_mole) (mkQ 9 dimensionless)
           300 None None).
  - reflexivity.
  - lra.
  - reflexivity.
  - reflexivity.
  - reflexivity.
Defined.

(** ** Conversions in two steps *)

Lemma scaled_eq (x y s : R) : x = y -> x / s = y / s.
Proof. now intros ->. Qed.

Lemma concentration_via_pic50_to_dg (k : kind) (val : Quantity) (T : R)
    (outUnit : option Unit) :
  k = Ki \/ k = Ic50 ->
  udim (unit val) = dim_concentration ->
  root_mag threshold <= root_mag val ->
  udim (target_unit Dg outUnit) = dim_energy_per_mole ->
  and_then (convertValue val (code k) "pic50" T None)
           (fun p => convertValue p "pic50" "dg" T outUnit) =
  convertValue val (code k) "dg" T outUnit.
Proof.
  intros Hk Hdim Hge Hout. pose proof ln10_neq_0 as Hl.
  rewrite (convertValue_concentration_to_pic50 k val T None Hk Hdim Hge).
  rewrite (convertValue_concentration_to_dg k val T outUnit Hk Hdim Hge Hout).
  unfold and_then. cbn [bind ret].
  rewrite convertValue_pic50_to_dg by (try reflexivity; exact Hout).
  apply returned_eq. f_equal. apply scaled_eq.
  unfold root_mag. cbn [mag unit uscale dimensionless].
  replace (mag val * uscale (unit val) / uscale molar)
    with (mag val * (uscale (unit val) / uscale molar)) by (unfold Rdiv; ring).
  field. exact Hl.
Qed.

Lemma dg_via_pic50_to_concentration (k : kind) (dg : Quantity) (T : R)
    (outUnit : option Unit) :
  k = Ki \/ k = Ic50 ->
  udim (unit dg) = dim_energy_per_mole ->
  T <> 0 ->
  udim (target_unit k outUnit) = dim_concentration ->
  and_then (convertValue dg "dg" "pic50" T None)
           (fun p => convertValue p "pic50" (code k) T outUnit) =
  convertValue dg "dg" (code k) T outUnit.
Proof.
  intros Hk Hdim HT Hout. pose proof ln10_neq_0 as Hl. pose proof gas_constant_pos as Hg.
  rewrite (convertValue_dg_to_pic50 dg T None Hdim HT eq_refl).
  rewrite (convertValue_dg_to_concentration k dg T outUnit Hk Hdim HT Hout).
  unfold and_then. cbn [bind ret target_unit natural_unit].
  rewrite (convertValue_pic50_to_concentration k _ T outUnit Hk) by (try reflexivity; exact Hout).
  apply returned_eq. apply scaled_eq. f_equal.
  unfold Rpower. fold ln10. f_equal.
  unfold root_mag at 1. cbn [mag unit uscale dimensionless]. field. split; lra.
Qed.

(** X8. Going through the negative-log potency changes nothing: a
    concentration of at least 1e-15 molar converted to "pic50" and from
    there to "dg" gives what the direct conversion to "dg" gives, and a
    free energy converted to "pic50" and from there to "ki" or "ic50"
    gives what the direct conversion gives. *)
Theorem conversions_through_pic50 (k : kind) (val dg : Quantity) (T : R)
    (unitDg unitK : option Unit) :
  k = Ki \/ k = Ic50 ->
  udim (unit val) = dim_concentration ->
  root_mag threshold <= root_mag val ->
  udim (target_unit Dg unitDg) = dim_energy_per_mole ->
  udim (unit dg) = dim_energy_per_mole ->
  T <> 0 ->
  udim (target_unit k unitK) = dim_concentration ->
  and_then (convertValue val (code k) "pic50" T None)
           (fun p => convertValue p "pic50" "dg" T unitDg) =
    convertValue val (code k) "dg" T unitDg /\
  and_then (convertValue dg "dg" "pic50" T None)
           (fun p => convertValue p "pic50" (code k) T unitK) =
    convertValue dg "dg" (code k) T unitK.
Proof.
  intros. split.
  - now apply concentration_via_pic50_to_dg.
  - now apply dg_via_pic50_to_concentration.
Qed.

Lemma conversions_through_pic50_witness :
  and_then (convertValue (mkQ 1 nanomolar) (code Ki) "pic50" 300 None)
           (fun p => convertValue p "pic50" "dg" 300 None) =
    convertValue (mkQ 1 nanomolar) (code Ki) "dg" 300 None /\
  and_then (convertValue (mkQ (-10) kilocalories_per_mole) "dg" "pic50" 300 None)
           (fun p => convertValue p "pic50" (code Ki) 300 None) =
    convertValue (mkQ (-10) kilocalories_per_mole) "dg" (code Ki) 300 None.
Proof.
  apply (conversions_through_pic50 Ki (mkQ 1 nanomolar) (mkQ (-10) kilocalories_per_mole)
           300 None None).
  - now left.
  - reflexivity.
  - rewrite root_mag_threshold. unfold root_mag. simpl. lra.
  - reflexivity.
  - reflexivity.
  - lra.
  - reflexivity.
Defined.

Lemma root_mag_nanomolar_molar (x : R) :
  root_mag (mkQ (x * uscale molar / uscale nanomolar) nanomolar) / uscale molar = x.
Proof. unfold root_mag. cbn [mag unit uscale molar nanomolar]. field. Qed.

Lemma threshold_le_nanomolar (x : R) :
  1e-15 <= x ->
  root_mag threshold <= root_mag (mkQ (x * uscale molar / uscale nanomolar) nanomolar).
Proof.
  intros Hx. rewrite root_mag_threshold.
  replace (root_mag (mkQ (x * uscale molar / uscale nanomolar) nanomolar))
    with (x * 1000) by (unfold root_mag; cbn [mag unit uscale molar nanomolar]; field).
  lra.
Qed.

Lemma nanomolar_target (k : kind) : k = Ki \/ k = Ic50 -> target_unit k None = nanomolar.
Proof. now intros [-> | ->]. Qed.

Lemma pic50_via_concentration_to_dg (k : kind) (p : Quantity) (T : R)
    (outUnit : option Unit) :
  k = Ki \/ k = Ic50 ->
  udim (unit p) = dim_one ->
  root_mag p <= 15 ->
  udim (target_unit Dg outUnit) = dim_energy_per_mole ->
  and_then (convertValue p "pic50" (code k) T None)
           (fun c => convertValue c (code k) "dg" T outUnit) =
  convertValue p "pic50" "dg" T outUnit.
Proof.
  intros Hk Hdim Hp Hout. pose proof ln10_neq_0 as Hl.
  assert (Hn := nanomolar_target k Hk).
  rewrite (convertValue_pic50_to_concentration k p T None Hk Hdim)
    by (rewrite Hn; reflexivity).
  rewrite Hn. rewrite (convertValue_pic50_to_dg p T outUnit Hdim Hout).
  unfold and_then. cbn [bind ret].
  assert (Hx : 1e-15 <= Rpower 10 (- root_mag p)).
  { rewrite <- Rpower_10_neg_15. apply Rle_Rpower; lra. }
  rewrite (convertValue_concentration_to_dg k
             (mkQ (Rpower 10 (- root_mag p) * uscale molar / uscale nanomolar) nanomolar)
             T outUnit Hk eq_refl (threshold_le_nanomolar _ Hx) Hout).
  apply returned_eq. f_equal. apply scaled_eq.
  rewrite root_mag_nanomolar_molar. unfold Rpower. rewrite ln_exp. fold ln10. ring.
Qed.

Lemma dg_via_concentration_to_pic50 (k : kind) (dg : Quantity) (T : R) :
  k = Ki \/ k = Ic50 ->
  udim (unit dg) = dim_energy_per_mole ->
  T <> 0 ->
  1e-15 <= exp (- root_mag dg / (gas_constant * T)) ->
  and_then (convertValue dg "dg" (code k) T None)
           (fun c => convertValue c (code k) "pic50" T None) =
  convertValue dg "dg" "pic50" T None.
Proof.
  intros Hk Hdim HT Hx. pose proof ln10_neq_0 as Hl. pose proof gas_constant_pos as Hg.
  assert (Hn := nanomolar_target k Hk).
  rewrite (convertValue_dg_to_concentration k dg T None Hk Hdim HT)
    by (rewrite Hn; reflexivity).
  rewrite Hn. rewrite (convertValue_dg_to_pic50 dg T None Hdim HT eq_refl).
  unfold and_then. cbn [bind ret].
  rewrite (convertValue_concentration_to_pic50 k
             (mkQ (exp (- root_mag dg / (gas_constant * T)) * uscale molar / uscale nanomolar)
                  nanomolar)
             T None Hk eq_refl (threshold_le_nanomolar _ Hx)).
  apply returned_eq. cbn [mag unit target_unit natural_unit].
  replace (exp (- root_mag dg / (gas_constant * T)) * uscale molar / uscale nanomolar *
           (uscale nanomolar / uscale molar))
    with (exp (- root_mag dg / (gas_constant * T)))
    by (cbn [uscale molar nanomolar]; field).
  rewrite ln_exp. cbn [uscale dimensionless]. field. repeat split; lra.
Qed.

(** X9. Going through a concentration changes nothing either, as long as
    the concentration on the way is at least 1e-15 molar: a potency of
    at most 15 converted to "ki" or "ic50" and from there to "dg" gives
    what the direct conversion to "dg" gives, and a free energy whose
    concentration exp(-dg / (R T)) is at least 1e-15 molar, converted to
    "ki" or "ic50" and from there to "pic50", gives what the direct
    conversion gives. *)
Theorem conversions_through_concentration (k : kind) (p dg : Quantity) (T : R)
    (unitDg : option Unit) :
  k = Ki \/ k = Ic50 ->
  udim (unit p) = dim_one ->
  root_mag p <= 15 ->
  udim (target_unit Dg unitDg) = dim_energy_per_mole ->
  udim (unit dg) = dim_energy_per_mole ->
  T <> 0 ->
  1e-15 <= exp (- root_mag dg / (gas_constant * T)) ->
  and_then (convertValue p "pic50" (code k) T None)
           (fun c => convertValue c (code k) "dg" T unitDg) =
    convertValue p "pic50" "dg" T unitDg /\
  and_then (convertValue dg "dg" (code k) T None)
           (fun c => convertValue c (code k) "pic50" T None) =
    convertValue dg "dg" "pic50" T None.
Proof.
  intros. split.
  - now apply pic50_via_concentration_to_dg.
  - now apply dg_via_concentration_to_pic50.
Qed.

Lemma conversions_through_concentration_witness :
  and_then (convertValue (mkQ 9 dimensionless) "pic50" (code Ic50) 300 None)
           (fun c => convertValue c (code Ic50) "dg" 300 None) =
    convertValue (mkQ 9 dimensionless) "pic50" "dg" 300 None /\
  and_then (convertValue (mkQ 0 kilocalories_per_mole) "dg" (code Ic50) 300 None)
           (fun c => convertValue c (code Ic50) "pic50" 300 None) =
    convertValue (mkQ 0 kilocalories_per_mole) "dg" "pic50" 300 None.
Proof.
  apply (conversions_through_concentration Ic50 (mkQ 9 dimensionless)
           (mkQ 0 kilocalories_per_mole) 300 None).
  - now right.
  - reflexivity.
  - unfold root_mag. simpl. lra.
  - reflexivity.
  - reflexivity.
  - lra.
  - unfold root_mag. simpl.
    replace (- (0 * 4184) / (gas_constant * 300)) with 0 by (unfold Rdiv; ring).
    rewrite exp_0. lra.
Defined.

(** ** Round trips that start from the free energy *)

Lemma round_trip_dg_pic50 (m T : R) :
  T <> 0 ->
  round_trip Dg Pic50 (mkQ m kilocalories_per_mole) T =
  ret (Some (mkQ (round2 (- m)) kilocalories_per_mole)).
Proof.
  intros HT. pose proof ln10_neq_0 as Hl. pose proof gas_constant_pos as Hg.
  unfold round_trip. change (code Dg) with "dg". change (code Pic50) with "pic50".
  rewrite (convertValue_dg_to_pic50 (mkQ m kilocalories_per_mole) T None eq_refl HT eq_refl).
  cbn [bind ret unit].
  rewrite convertValue_pic50_to_dg by reflexivity.
  apply returned_eq. f_equal.
  unfold root_mag. cbn [mag unit target_unit natural_unit uscale dimensionless
                        kilocalories_per_mole].
  field. repeat split; lra.
Qed.

Lemma round2_10 : round2 10 = 10.
Proof.
  replace 10 with (IZR 1000 / 100) by lra. apply round2_fixes.
Qed.

(** C2. A free energy of -10 kcal/mol converted to "pic50" and back to
    "dg" at 300 K, into its own unit, comes back as +10 kcal/mol: the
    round trip does not reproduce the value within the two-decimal
    tolerance.  The conversion from "dg" to "pic50" is dg / (R T ln 10),
    the conversion from "pic50" to "dg" is -R T ln(10) p. *)
Theorem round_trip_dg_pic50_changes_sign :
  round_trip Dg Pic50 (mkQ (-10) kilocalories_per_mole) 300 =
    ret (Some (mkQ 10 kilocalories_per_mole)) /\
  ~ reproduces (1 / 100) (mkQ (-10) kilocalories_per_mole)
      (round_trip Dg Pic50 (mkQ (-10) kilocalories_per_mole) 300).
Proof.
  assert (Hrun : round_trip Dg Pic50 (mkQ (-10) kilocalories_per_mole) 300 =
                 ret (Some (mkQ 10 kilocalories_per_mole))).
  { rewrite round_trip_dg_pic50 by lra. apply returned_eq.
    replace (- -10) with 10 by lra. apply round2_10. }
  split; [exact Hrun|].
  rewrite Hrun. intros [q [E [_ Hclose]]]. injection E as <-.
  cbn [mag] in Hclose. unfold Rabs in Hclose.
  destruct (Rcase_abs _) in Hclose; lra.
Qed.

Lemma round_trip_dg_concentration (k : kind) (m T : R) :
  k = Ki \/ k = Ic50 ->
  T <> 0 ->
  1e-15 <= exp (- root_mag (mkQ m kilocalories_per_mole) / (gas_constant * T)) ->
  round_trip Dg k (mkQ m kilocalories_per_mole) T =
  ret (Some (mkQ (round2 (- m)) kilocalories_per_mole)).
Proof.
  intros Hk HT Hx. pose proof gas_constant_pos as Hg.
  assert (Hn := nanomolar_target k Hk).
  unfold round_trip. change (code Dg) with "dg".
  rewrite (convertValue_dg_to_concentration k (mkQ m kilocalories_per_mole) T None
             Hk eq_refl HT)
    by (rewrite Hn; reflexivity).
  rewrite Hn. cbn [bind ret unit].
  rewrite (convertValue_concentration_to_dg k
             (mkQ (exp (- root_mag (mkQ m kilocalories_per_mole) / (gas_constant * T))
                   * uscale molar / uscale nanomolar) nanomolar)
             T (Some kilocalories_per_mole) Hk eq_refl (threshold_le_nanomolar _ Hx) eq_refl).
  apply returned_eq. f_equal.
  rewrite root_mag_nanomolar_molar, ln_exp.
  unfold root_mag. cbn [mag unit target_unit uscale kilocalories_per_mole].
  field. split; lra.
Qed.

(** X10. A free energy does not survive the round trip: converted to another
    kind and back, a value in kilocalories per mole comes back with its
    sign changed (and rounded to two decimals), because the conversions
    from "dg" and the conversions to "dg" use opposite signs.  For the
    trip through "ki" or "ic50" the concentration on the way,
    exp(-dg / (R T)) molar, has to be at least 1e-15 molar. *)
Theorem round_trip_from_dg_negates (B : kind) (m T : R) :
  T <> 0 ->
  B = Pic50 \/
  ((B = Ki \/ B = Ic50) /\
   1e-15 <= exp (- root_mag (mkQ m kilocalories_per_mole) / (gas_constant * T))) ->
  round_trip Dg B (mkQ m kilocalories_per_mole) T =
  ret (Some (mkQ (round2 (- m)) kilocalories_per_mole)).
Proof.
  intros HT [-> | [Hk Hx]].
  - now apply round_trip_dg_pic50.
  - now apply round_trip_dg_concentration.
Qed.

Lemma round_trip_from_dg_negates_witness :
  round_trip Dg Pic50 (mkQ (-10) kilocalories_per_mole) 300 =
  ret (Some (mkQ (round2 (- (-10))) kilocalories_per_mole)).
Proof.
  apply (round_trip_from_dg_negates Pic50 (-10) 300).
  - lra.
  - now left.
Defined.

(** ** Order *)

Lemma rint_monotone (x y : R) : x <= y -> (rint x <= rint y)%Z.
Proof.
  intros Hxy. pose proof (rint_near x) as Hx. pose proof (rint_near y) as Hy.
  destruct (Z_lt_le_dec (rint y) (rint x)) as [Hlt | Hle]; [|exact Hle].
  exfalso.
  assert (H1 : IZR (rint y) + 1 <= IZR (rint x)).
  { rewrite <- (plus_IZR _ 1). apply IZR_le. lia. }
  assert (E : x = y) by lra.
  subst y. lia.
Qed.

Lemma round2_monotone (x y : R) : x <= y -> round2 x <= round2 y.
Proof.
  intros Hxy. unfold round2.
  assert (H : IZR (rint (x * 100)) <= IZR (rint (y * 100))).
  { apply IZR_le, rint_monotone. lra. }
  lra.
Qed.

Lemma ln_le (x y : R) : 0 < x -> x <= y -> ln x <= ln y.
Proof.
  intros Hx [Hlt | ->]; [|lra]. left. now apply ln_increasing.
Qed.

(** X11. The free energy follows the concentration: of two "ki" (or "ic50")
    values of at least 1e-15 molar, in whatever concentration units, the
    smaller one gets the smaller or equal free energy, rounding
    included, at any temperature that is not negative; and a
    concentration of at most 1 molar gets a free energy that is not
    positive. *)
Theorem convertValue_dg_monotone (k : kind) (val1 val2 : Quantity) (T : R)
    (outUnit : option Unit) :
  k = Ki \/ k = Ic50 ->
  udim (unit val1) = dim_concentration ->
  udim (unit val2) = dim_concentration ->
  root_mag threshold <= root_mag val1 ->
  root_mag val1 <= root_mag val2 ->
  0 <= T ->
  udim (target_unit Dg outUnit) = dim_energy_per_mole ->
  0 < uscale (target_unit Dg outUnit) ->
  value_of (convertValue val1 (code k) "dg" T outUnit) <=
    value_of (convertValue val2 (code k) "dg" T outUnit) /\
  (root_mag val2 <= uscale molar ->
   value_of (convertValue val2 (code k) "dg" T outUnit) <= 0).
Proof.
  intros Hk Hd1 Hd2 Hge H12 HT Hout Hs. pose proof gas_constant_pos as Hg.
  assert (Hge2 : root_mag threshold <= root_mag val2) by lra.
  rewrite (convertValue_concentration_to_dg k val1 T outUnit Hk Hd1 Hge Hout).
  rewrite (convertValue_concentration_to_dg k val2 T outUnit Hk Hd2 Hge2 Hout).
  cbn [value_of ret mag]. rewrite root_mag_threshold in *.
  set (s := uscale (target_unit Dg outUnit)) in *.
  assert (Hinv : 0 < / s) by now apply Rinv_0_lt_compat.
  assert (HgT : 0 <= gas_constant * T) by nra.
  split.
  - apply round2_monotone.
    assert (Hln : ln (root_mag val1 / uscale molar) <= ln (root_mag val2 / uscale molar)).
    { apply ln_le; cbn [uscale molar]; lra. }
    unfold Rdiv at 1 3. apply Rmult_le_compat_r; [lra|].
    apply Rmult_le_compat_l; assumption.
  - intros H1. rewrite <- round2_0. apply round2_monotone.
    assert (Hln : ln (root_mag val2 / uscale molar) <= 0).
    { rewrite <- ln_1. apply ln_le; cbn [uscale molar] in *; lra. }
    unfold Rdiv at 1. rewrite <- (Rmult_0_l (/ s)).
    apply Rmult_le_compat_r; [lra|]. nra.
Qed.

Lemma convertValue_dg_monotone_witness :
  value_of (convertValue (mkQ 1 nanomolar) (code Ki) "dg" 300 None) <=
    value_of (convertValue (mkQ 50 nanomolar) (code Ki) "dg" 300 None) /\
  (root_mag (mkQ 50 nanomolar) <= uscale molar ->
   value_of (convertValue (mkQ 50 nanomolar) (code Ki) "dg" 300 None) <= 0).
Proof.
  apply (convertValue_dg_monotone Ki (mkQ 1 nanomolar) (mkQ 50 nanomolar) 300 None).
  - now left.
  - reflexivity.
  - reflexivity.
  - rewrite root_mag_threshold. unfold root_mag. simpl. lra.
  - unfold root_mag. simpl. lra.
  - lra.
  - reflexivity.
  - simpl. lra.
Defined.

(** ** What the propagated error depends on *)

Lemma np_exp_dimensionless (q : Quantity) :
  udim (unit q) = dim_one -> np_exp q = ret (mkQ (exp (root_mag q)) dimensionless).
Proof. intros H. unfold np_exp. now rewrite H. Qed.

Lemma rpow_dimensionless (x : R) (q : Quantity) :
  udim (unit q) = dim_one -> rpow x q = ret (Rpower x (root_mag q)).
Proof. intros H. unfold rpow. now rewrite H. Qed.

Lemma zero_below_threshold (u : Unit) (x : R) :
  udim u = dim_concentration -> qlt (mkQ (x * 0) u) threshold = ret true.
Proof.
  intros H. apply qlt_below; [exact H|].
  rewrite root_mag_threshold. unfold root_mag. cbn [mag unit]. lra.
Qed.

Lemma convertError_ignores_value (src dst : kind) (eVal val val' : Quantity) (T : R)
    (outUnit : option Unit) :
  error_ignores_value src dst = true ->
  convertError eVal val (code src) (code dst) T outUnit =
  convertError eVal val' (code src) (code dst) T outUnit.
Proof.
  intros H. unfold convertError, convertError_with.
  destruct src, dst; try discriminate H; reflexivity.
Qed.

Lemma convertError_concentration_reads_value (k dst : kind) :
  k = Ki \/ k = Ic50 ->
  dst = Dg \/ dst = Pic50 ->
  convertError (mkQ 0 molar) (mkQ (1 * 0) molar) (code k) (code dst) 1 None <>
  convertError (mkQ 0 molar) (mkQ (1 * 0) dimensionless) (code k) (code dst) 1 None.
Proof.
  intros Hk Hdst. unfold convertError, convertError_with.
  assert (Hs : forall u, qscale ln10 (mkQ (1 * 0) u) = mkQ (ln10 * 1 * 0) u).
  { intros u. unfold qscale. cbn [mag unit]. f_equal. ring. }
  destruct Hk as [-> | ->], Hdst as [-> | ->]; simpl code; codes;
    cbn [default_unit]; codes; rewrite ?Hs;
    rewrite (zero_below_threshold molar _ eq_refl);
    rewrite qlt_other_dim by discriminate;
    cbn [bind ret raise as_unit]; discriminate.
Qed.

Lemma convertError_from_dg_reads_value (k : kind) :
  k = Ki \/ k = Ic50 ->
  convertError (mkQ 1 joule_per_mole) (mkQ 0 joule_per_mole) "dg" (code k) 1 None <>
  convertError (mkQ 1 joule_per_mole) (mkQ 0 molar) "dg" (code k) 1 None.
Proof.
  intros Hk. assert (H1 : (1 : R) <> 0) by lra.
  unfold convertError, convertError_with.
  destruct Hk as [-> | ->]; simpl code; codes; cbn [default_unit]; codes;
    rewrite (fdivq_nonzero _ _ (kBT_nonzero 1 H1)), bind_ret;
    rewrite !(qdiv_nonzero _ _ (kBT_nonzero 1 H1)), !bind_ret;
    rewrite np_exp_dimensionless by reflexivity;
    rewrite np_exp_other_dim by discriminate;
    cbn [bind ret raise as_unit]; rewrite qto_same_dim by reflexivity;
    cbn [bind ret raise]; discriminate.
Qed.

Lemma convertError_from_pic50_reads_value (k : kind) :
  k = Ki \/ k = Ic50 ->
  convertError (mkQ 1 dimensionless) (mkQ 0 dimensionless) "pic50" (code k) 1 None <>
  convertError (mkQ 1 dimensionless) (mkQ 0 molar) "pic50" (code k) 1 None.
Proof.
  intros Hk. unfold convertError, convertError_with.
  destruct Hk as [-> | ->]; simpl code; codes; cbn [default_unit]; codes;
    rewrite rpow_dimensionless by reflexivity;
    rewrite rpow_other_dim by discriminate;
    cbn [bind ret raise as_unit]; rewrite qto_same_dim by reflexivity;
    cbn [bind ret raise]; discriminate.
Qed.

(** X12. The propagated error does not depend on the value exactly on the
    paths that are linear: between "dg" and "pic50", between "ki" and
    "ic50", and from a kind to itself.  There [convertError] never looks
    at [val]; on the eight other paths some change of [val] changes
    the outcome. *)
Theorem convertError_ignores_value_iff (src dst : kind) :
  error_ignores_value src dst = true <->
  (forall (eVal val val' : Quantity) (T : R) (outUnit : option Unit),
     convertError eVal val (code src) (code dst) T outUnit =
     convertError eVal val' (code src) (code dst) T outUnit).
Proof.
  split.
  - intros H eVal val val' T outUnit. now apply convertError_ignores_value.
  - intros H. destruct src, dst; try reflexivity; exfalso.
    + apply (convertError_from_dg_reads_value Ki); [now left | apply H].
    + apply (convertError_from_dg_reads_value Ic50); [now right | apply H].
    + apply (convertError_concentration_reads_value Ki Dg); [now left | now left | apply H].
    + apply (convertError_concentration_reads_value Ki Pic50); [now left | now right | apply H].
    + apply (convertError_concentration_reads_value Ic50 Dg); [now right | now left | apply H].
    + apply (convertError_concentration_reads_value Ic50 Pic50);
        [now right | now right | apply H].
    + apply (convertError_from_pic50_reads_value Ki); [now left | apply H].
    + apply (convertError_from_pic50_reads_value Ic50); [now right | apply H].
Qed.

(** ** The propagated error in closed form *)

Lemma root_mag_nonzero (q : Quantity) : root_mag q <> 0 -> mag q <> 0 /\ uscale (unit q) <> 0.
Proof.
  unfold root_mag. intros H. split; intros E; apply H; rewrite E; ring.
Qed.

Lemma returned_rnd_eq (rnd : R -> R) (m m' : R) (u : Unit) :
  m = m' -> ret (Some (mkQ (rnd m) u)) = ret (Some (mkQ (rnd m') u)) :> py (option Quantity).
Proof. now intros ->. Qed.

Lemma convertValue_with_concentration_to_dg (rnd : R -> R) (k : kind) (val : Quantity)
    (T : R) (outUnit : option Unit) :
  k = Ki \/ k = Ic50 ->
  udim (unit val) = dim_concentration ->
  root_mag threshold <= root_mag val ->
  udim (target_unit Dg outUnit) = dim_energy_per_mole ->
  convertValue_with rnd val (code k) "dg" T outUnit =
  ret (Some (mkQ (rnd (gas_constant * T * ln (root_mag val / uscale molar)
                       / uscale (target_unit Dg outUnit)))
                 (target_unit Dg outUnit))).
Proof.
  intros Hk Hdim Hge Hout.
  unfold convertValue_with. rewrite (default_unit_code Dg).
  destruct Hk as [-> | ->]; simpl code; codes.
  - rewrite (qlt_threshold_false _ Hdim Hge), bind_ret.
    rewrite (np_log_molar _ Hdim), bind_ret. cbn [as_unit bind ret].
    rewrite qto_same_dim by (rewrite Hout; reflexivity).
    cbn [bind ret]. magnitudes. apply returned_rnd_eq.
    replace (mag val * uscale (unit val) / uscale molar)
      with (mag val * (uscale (unit val) / uscale molar)) by (unfold Rdiv; ring).
    unfold Rdiv. rewrite Rinv_1. ring.
  - rewrite (qlt_threshold_false _ Hdim Hge), bind_ret.
    rewrite (qto_same_dim val molar Hdim), bind_ret.
    rewrite (np_log_to_molar val Hdim), (np_log_molar _ Hdim), bind_ret.
    cbn [as_unit bind ret].
    rewrite qto_same_dim by (rewrite Hout; reflexivity).
    cbn [bind ret]. magnitudes. apply returned_rnd_eq.
    replace (mag val * uscale (unit val) / uscale molar)
      with (mag val * (uscale (unit val) / uscale molar)) by (unfold Rdiv; ring).
    unfold Rdiv. rewrite Rinv_1. ring.
Qed.

Lemma convertError_with_concentration_to_dg (rnd : R -> R) (k : kind)
    (eVal val : Quantity) (T : R) (outUnit : option Unit) :
  k = Ki \/ k = Ic50 ->
  udim (unit val) = dim_concentration ->
  udim (unit eVal) = dim_concentration ->
  root_mag threshold <= root_mag val ->
  udim (target_unit Dg outUnit) = dim_energy_per_mole ->
  convertError_with rnd eVal val (code k) "dg" T outUnit =
  ret (Some (mkQ (rnd (gas_constant * T * root_mag eVal / root_mag val
                       / uscale (target_unit Dg outUnit)))
                 (target_unit Dg outUnit))).
Proof.
  intros Hk Hdim Hedim Hge Hout.
  assert (Hnz : root_mag val <> 0) by (rewrite root_mag_threshold in Hge; lra).
  destruct (root_mag_nonzero val Hnz) as [Hm Hs].
  unfold convertError_with. rewrite (default_unit_code Dg).
  destruct Hk as [-> | ->]; simpl code; codes;
    rewrite (qlt_threshold_false _ Hdim Hge), bind_ret;
    rewrite (qdiv_nonzero _ _ Hm), bind_ret; cbn [as_unit bind ret];
    (rewrite qto_same_dim
       by (cbn [unit udim qmul unit_mul unit_div]; rewrite Hdim, Hedim, Hout; reflexivity));
    cbn [bind ret]; magnitudes; apply returned_rnd_eq; apply scaled_eq;
    field; split; assumption.
Qed.

Lemma convertError_with_dg_to_concentration (rnd : R -> R) (k : kind)
    (eVal val : Quantity) (T : R) (outUnit : option Unit) :
  k = Ki \/ k = Ic50 ->
  udim (unit val) = dim_energy_per_mole ->
  udim (unit eVal) = dim_energy_per_mole ->
  T <> 0 ->
  udim (target_unit k outUnit) = dim_concentration ->
  convertError_with rnd eVal val "dg" (code k) T outUnit =
  ret (Some (mkQ (root_mag eVal / (gas_constant * T)
                  * exp (- root_mag val / (gas_constant * T)) * uscale molar
                  / uscale (target_unit k outUnit))
                 (target_unit k outUnit))).
Proof.
  intros Hk Hdim Hedim HT Hout. pose proof gas_constant_pos as Hg.
  unfold convertError_with. rewrite (default_unit_code k).
  destruct Hk as [-> | ->]; simpl code; codes;
    rewrite (fdivq_nonzero _ _ (kBT_nonzero T HT)), bind_ret;
    rewrite (qdiv_nonzero _ _ (kBT_nonzero T HT)), bind_ret;
    (rewrite np_exp_dimensionless
       by (cbn [unit udim unit_div qneg]; rewrite Hdim; reflexivity));
    cbn [as_unit bind ret];
    (rewrite qto_same_dim
       by (cbn [unit udim qmul q_mul_unit unit_mul unit_div]; rewrite Hedim, Hout;
           reflexivity));
    cbn [bind ret]; magnitudes; apply returned_eq; apply scaled_eq;
    replace (- mag val / (T * gas_constant) * (uscale (unit val) / (1 / 1 * 1)))
      with (- (mag val * uscale (unit val)) / (gas_constant * T)) by (field; lra);
    field; lra.
Qed.

Lemma convertError_with_concentration_to_pic50 (rnd : R -> R) (k : kind)
    (eVal val : Quantity) (T : R) (outUnit : option Unit) :
  k = Ki \/ k = Ic50 ->
  udim (unit val) = dim_concentration ->
  udim (unit eVal) = dim_concentration ->
  root_mag threshold <= ln10 * root_mag val ->
  udim (target_unit Pic50 outUnit) = dim_one ->
  convertError_with rnd eVal val (code k) "pic50" T outUnit =
  ret (Some (mkQ (rnd (root_mag eVal / (ln10 * root_mag val)
                       / uscale (target_unit Pic50 outUnit)))
                 (target_unit Pic50 outUnit))).
Proof.
  intros Hk Hdim Hedim Hge Hout. pose proof ln10_gt_2 as Hl.
  assert (Hnz : root_mag val <> 0).
  { rewrite root_mag_threshold in Hge. intros E. rewrite E in Hge. lra. }
  destruct (root_mag_nonzero val Hnz) as [Hm Hs].
  assert (Hq : qlt (qscale ln10 val) threshold = ret false).
  { apply qlt_not_below; [exact Hdim|]. now rewrite root_mag_qscale. }
  assert (Hlm : mag (qscale ln10 val) <> 0).
  { cbn [qscale mag]. apply Rmult_integral_contrapositive_currified; lra. }
  unfold convertError_with. rewrite (default_unit_code Pic50).
  destruct Hk as [-> | ->]; simpl code; codes;
    rewrite Hq, bind_ret; rewrite (fdivq_nonzero _ _ Hlm), bind_ret;
    cbn [as_unit bind ret];
    (rewrite qto_same_dim
       by (cbn [unit udim qmul qscale unit_mul unit_div]; rewrite Hdim, Hedim, Hout;
           reflexivity));
    cbn [bind ret]; magnitudes; apply returned_rnd_eq; apply scaled_eq;
    field; repeat split; lra.
Qed.

Lemma convertError_with_pic50_to_concentration (rnd : R -> R) (k : kind)
    (eVal val : Quantity) (T : R) (outUnit : option Unit) :
  k = Ki \/ k = Ic50 ->
  udim (unit val) = dim_one ->
  udim (unit eVal) = dim_one ->
  udim (target_unit k outUnit) = dim_concentration ->
  convertError_with rnd eVal val "pic50" (code k) T outUnit =
  ret (Some (mkQ (rnd (ln10 * Rpower 10 (- root_mag val) * root_mag eVal * uscale molar
                       / uscale (target_unit k outUnit)))
                 (target_unit k outUnit))).
Proof.
  intros Hk Hdim Hedim Hout.
  unfold convertError_with. rewrite (default_unit_code k).
  destruct Hk as [-> | ->]; simpl code; codes;
    (rewrite rpow_dimensionless by (cbn [qneg unit]; exact Hdim));
    cbn [as_unit bind ret];
    (rewrite qto_same_dim
       by (cbn [unit udim qmul qscale of_unit unit_mul]; rewrite Hedim, Hout; reflexivity));
    cbn [bind ret]; magnitudes; apply returned_rnd_eq; apply scaled_eq;
    replace (- mag val * uscale (unit val)) with (- (mag val * uscale (unit val))) by ring;
    ring.
Qed.

(** ** The propagated error and the derivative of the conversion *)

Lemma derivable_pt_lim_linear (B x0 : R) : derivable_pt_lim (fun x => B * x) x0 B.
Proof.
  apply (derivable_pt_lim_ext (mult_real_fct B id)); [reflexivity|].
  replace B with (B * 1) at 2 by ring.
  apply derivable_pt_lim_scal, derivable_pt_lim_id.
Qed.

Lemma derivable_pt_lim_ln_scaled (A B x0 : R) :
  0 < B * x0 -> derivable_pt_lim (fun x => A * ln (B * x)) x0 (A / x0).
Proof.
  intros Hpos.
  assert (HB : B <> 0) by (intros ->; lra).
  assert (Hx : x0 <> 0) by (intros ->; lra).
  apply (derivable_pt_lim_ext (mult_real_fct A (comp ln (fun x => B * x)))); [reflexivity|].
  replace (A / x0) with (A * (/ (B * x0) * B)) by (field; split; assumption).
  apply derivable_pt_lim_scal.
  apply derivable_pt_lim_comp.
  - apply derivable_pt_lim_linear.
  - now apply derivable_pt_lim_ln.
Qed.

Lemma derivable_pt_lim_exp_scaled (A B x0 : R) :
  derivable_pt_lim (fun x => A * exp (B * x)) x0 (A * (B * exp (B * x0))).
Proof.
  apply (derivable_pt_lim_ext (mult_real_fct A (comp exp (fun x => B * x)))); [reflexivity|].
  apply derivable_pt_lim_scal.
  replace (B * exp (B * x0)) with (exp (B * x0) * B) by ring.
  apply derivable_pt_lim_comp.
  - apply derivable_pt_lim_linear.
  - apply derivable_pt_lim_exp.
Qed.

Lemma above_threshold (u : Unit) (a z : R) :
  0 < uscale u -> a = 1e-12 / uscale u -> a < z ->
  root_mag threshold <= root_mag (mkQ z u).
Proof.
  intros Hs -> Hz. rewrite root_mag_threshold. unfold root_mag. cbn [mag unit].
  apply (Rmult_lt_compat_r (uscale u)) in Hz; [|exact Hs].
  replace (1e-12 / uscale u * uscale u) with 1e-12 in Hz by (field; lra). lra.
Qed.

Lemma derivative_concentration_to_dg (k : kind) (u : Unit) (x0 T : R)
    (outUnit : option Unit) :
  k = Ki \/ k = Ic50 ->
  udim u = dim_concentration ->
  0 < uscale u ->
  root_mag threshold < root_mag (mkQ x0 u) ->
  udim (target_unit Dg outUnit) = dim_energy_per_mole ->
  derivable_pt_lim
    (fun x => value_of (convertValue_with unrounded (mkQ x u) (code k) "dg" T outUnit))
    x0 (gas_constant * T / x0 / uscale (target_unit Dg outUnit)).
Proof.
  intros Hk Hdim Hs Hgt Hout. rewrite root_mag_threshold in Hgt.
  unfold root_mag in Hgt. cbn [mag unit] in Hgt.
  set (a := 1e-12 / uscale u).
  assert (Ha : a < x0).
  { unfold a. apply (Rmult_lt_reg_r (uscale u)); [exact Hs|].
    replace (1e-12 / uscale u * uscale u) with 1e-12 by (field; lra). exact Hgt. }
  apply (derivable_pt_lim_locally_ext
           (fun x => gas_constant * T / uscale (target_unit Dg outUnit)
                     * ln (uscale u / uscale molar * x)) _ x0 a (x0 + 1)).
  - lra.
  - intros z [Hz _].
    rewrite (convertValue_with_concentration_to_dg unrounded k (mkQ z u) T outUnit Hk Hdim
               (above_threshold u a z Hs eq_refl Hz) Hout).
    cbn [value_of ret mag]. unfold unrounded, root_mag. cbn [mag unit].
    replace (z * uscale u / uscale molar) with (uscale u / uscale molar * z)
      by (unfold Rdiv; ring).
    unfold Rdiv. ring.
  - replace (gas_constant * T / x0 / uscale (target_unit Dg outUnit))
      with (gas_constant * T / uscale (target_unit Dg outUnit) / x0)
      by (unfold Rdiv; ring).
    apply derivable_pt_lim_ln_scaled. cbn [uscale molar].
    assert (Hapos : 0 < a) by (unfold a; apply Rdiv_lt_0_compat; lra).
    apply Rmult_lt_0_compat; [|lra]. apply Rdiv_lt_0_compat; lra.
Qed.

Lemma derivative_dg_to_concentration (k : kind) (u : Unit) (x0 T : R)
    (outUnit : option Unit) :
  k = Ki \/ k = Ic50 ->
  udim u = dim_energy_per_mole ->
  T <> 0 ->
  udim (target_unit k outUnit) = dim_concentration ->
  derivable_pt_lim
    (fun x => value_of (convertValue (mkQ x u) "dg" (code k) T outUnit))
    x0 (- (uscale u / (gas_constant * T)
           * exp (- root_mag (mkQ x0 u) / (gas_constant * T)) * uscale molar
           / uscale (target_unit k outUnit))).
Proof.
  intros Hk Hdim HT Hout. pose proof gas_constant_pos as Hg.
  apply (derivable_pt_lim_ext
           (fun x => uscale molar / uscale (target_unit k outUnit)
                     * exp (- (uscale u / (gas_constant * T)) * x))).
  - intros z.
    rewrite (convertValue_dg_to_concentration k (mkQ z u) T outUnit Hk Hdim HT Hout).
    cbn [value_of ret mag]. unfold root_mag. cbn [mag unit].
    replace (- (z * uscale u) / (gas_constant * T))
      with (- (uscale u / (gas_constant * T)) * z) by (field; lra).
    unfold Rdiv. ring.
  - match goal with
    | |- derivable_pt_lim _ _ ?l =>
        replace l with (uscale molar / uscale (target_unit k outUnit)
                        * (- (uscale u / (gas_constant * T))
                           * exp (- (uscale u / (gas_constant * T)) * x0)))
    end.
    + apply derivable_pt_lim_exp_scaled.
    + unfold root_mag. cbn [mag unit].
      replace (- (x0 * uscale u) / (gas_constant * T))
        with (- (uscale u / (gas_constant * T)) * x0) by (field; lra).
      unfold Rdiv. ring.
Qed.

(** X13. Between a concentration and the free energy the propagated error
    is the first-order one.  For a "ki" or "ic50" value above 1e-15
    molar the unrounded conversion to "dg" has derivative
    R T / (x0 s) in the value (s the scale of the target unit), and the
    unrounded error is that derivative times the input error.  For a
    free energy and a non-zero temperature the conversion to "ki" or
    "ic50" has a derivative d, and the error returned is -d times the
    input error: its absolute value when T is positive. *)
Theorem error_is_derivative_free_energy (k : kind) (uc ue : Unit) (x0 g0 e T : R)
    (unitDg unitK : option Unit) :
  k = Ki \/ k = Ic50 ->
  udim uc = dim_concentration ->
  0 < uscale uc ->
  root_mag threshold < root_mag (mkQ x0 uc) ->
  udim (target_unit Dg unitDg) = dim_energy_per_mole ->
  udim ue = dim_energy_per_mole ->
  T <> 0 ->
  udim (target_unit k unitK) = dim_concentration ->
  (derivable_pt_lim
     (fun x => value_of (convertValue_with unrounded (mkQ x uc) (code k) "dg" T unitDg))
     x0 (gas_constant * T / x0 / uscale (target_unit Dg unitDg)) /\
   convertError_with unrounded (mkQ e uc) (mkQ x0 uc) (code k) "dg" T unitDg =
     ret (Some (mkQ (gas_constant * T / x0 / uscale (target_unit Dg unitDg) * e)
                    (target_unit Dg unitDg)))) /\
  (derivable_pt_lim
     (fun x => value_of (convertValue (mkQ x ue) "dg" (code k) T unitK))
     g0 (- (uscale ue / (gas_constant * T)
            * exp (- root_mag (mkQ g0 ue) / (gas_constant * T)) * uscale molar
            / uscale (target_unit k unitK))) /\
   convertError (mkQ e ue) (mkQ g0 ue) "dg" (code k) T unitK =
     ret (Some (mkQ (uscale ue / (gas_constant * T)
                     * exp (- root_mag (mkQ g0 ue) / (gas_constant * T)) * uscale molar
                     / uscale (target_unit k unitK) * e)
                    (target_unit k unitK)))).
Proof.
  intros Hk Hc Hs Hgt HoutDg He HT HoutK. pose proof gas_constant_pos as Hg.
  split; split.
  - now apply derivative_concentration_to_dg.
  - assert (Hge : root_mag threshold <= root_mag (mkQ x0 uc)) by lra.
    rewrite (convertError_with_concentration_to_dg unrounded k (mkQ e uc) (mkQ x0 uc) T unitDg
               Hk Hc Hc Hge HoutDg).
    apply returned_eq. unfold unrounded.
    rewrite root_mag_threshold in Hgt. unfold root_mag in *. cbn [mag unit] in *.
    assert (Hx : x0 <> 0) by (intros ->; lra).
    unfold Rdiv. rewrite (Rinv_mult x0 (uscale uc)).
    replace (gas_constant * T * (e * uscale uc) * (/ x0 * / uscale uc))
      with (gas_constant * T * e * / x0 * (uscale uc * / uscale uc)) by ring.
    rewrite Rinv_r by lra. ring.
  - now apply derivative_dg_to_concentration.
  - unfold convertError.
    rewrite (convertError_with_dg_to_concentration round2 k (mkQ e ue) (mkQ g0 ue) T unitK
               Hk He He HT HoutK).
    apply returned_eq. unfold root_mag. cbn [mag unit]. unfold Rdiv. ring.
Qed.

Lemma error_is_derivative_free_energy_witness :
  convertError_with unrounded (mkQ 1 nanomolar) (mkQ 5 nanomolar) (code Ki) "dg" 300 None =
  ret (Some (mkQ (gas_constant * 300 / 5 / uscale kilocalories_per_mole * 1)
                 kilocalories_per_mole)).
Proof.
  apply (error_is_derivative_free_energy Ki nanomolar kilocalories_per_mole
           5 (-10) 1 300 None None).
  - now left.
  - reflexivity.
  - simpl. lra.
  - rewrite root_mag_threshold. unfold root_mag. simpl. lra.
  - reflexivity.
  - reflexivity.
  - lra.
  - reflexivity.
Defined.

Lemma derivative_concentration_to_pic50 (k : kind) (u : Unit) (x0 T : R)
    (outUnit : option Unit) :
  k = Ki \/ k = Ic50 ->
  udim u = dim_concentration ->
  0 < uscale u ->
  root_mag threshold < root_mag (mkQ x0 u) ->
  derivable_pt_lim
    (fun x => value_of (convertValue (mkQ x u) (code k) "pic50" T outUnit))
    x0 (- (1 / (ln10 * x0))).
Proof.
  intros Hk Hdim Hs Hgt. pose proof ln10_neq_0 as Hl.
  rewrite root_mag_threshold in Hgt. unfold root_mag in Hgt. cbn [mag unit] in Hgt.
  set (a := 1e-12 / uscale u).
  assert (Hapos : 0 < a) by (unfold a; apply Rdiv_lt_0_compat; lra).
  assert (Ha : a < x0).
  { unfold a. apply (Rmult_lt_reg_r (uscale u)); [exact Hs|].
    replace (1e-12 / uscale u * uscale u) with 1e-12 by (field; lra). exact Hgt. }
  apply (derivable_pt_lim_locally_ext
           (fun x => - (1 / ln10) * ln (uscale u / uscale molar * x)) _ x0 a (x0 + 1)).
  - lra.
  - intros z [Hz _].
    rewrite (convertValue_concentration_to_pic50 k (mkQ z u) T outUnit Hk Hdim
               (above_threshold u a z Hs eq_refl Hz)).
    cbn [value_of ret mag unit].
    replace (z * (uscale u / uscale molar)) with (uscale u / uscale molar * z) by ring.
    field. exact Hl.
  - replace (- (1 / (ln10 * x0))) with (- (1 / ln10) / x0) by (field; split; lra).
    apply derivable_pt_lim_ln_scaled. cbn [uscale molar].
    apply Rmult_lt_0_compat; [|lra]. apply Rdiv_lt_0_compat; lra.
Qed.

Lemma derivative_pic50_to_concentration (k : kind) (u : Unit) (x0 T : R)
    (outUnit : option Unit) :
  k = Ki \/ k = Ic50 ->
  udim u = dim_one ->
  udim (target_unit k outUnit) = dim_concentration ->
  derivable_pt_lim
    (fun x => value_of (convertValue (mkQ x u) "pic50" (code k) T outUnit))
    x0 (- (uscale u * ln10 * Rpower 10 (- root_mag (mkQ x0 u)) * uscale molar
           / uscale (target_unit k outUnit))).
Proof.
  intros Hk Hdim Hout.
  apply (derivable_pt_lim_ext
           (fun x => uscale molar / uscale (target_unit k outUnit)
                     * exp (- (uscale u * ln10) * x))).
  - intros z.
    rewrite (convertValue_pic50_to_concentration k (mkQ z u) T outUnit Hk Hdim Hout).
    cbn [value_of ret mag]. unfold root_mag, Rpower. cbn [mag unit]. fold ln10.
    replace (- (z * uscale u) * ln10) with (- (uscale u * ln10) * z) by ring.
    unfold Rdiv. ring.
  - match goal with
    | |- derivable_pt_lim _ _ ?l =>
        replace l with (uscale molar / uscale (target_unit k outUnit)
                        * (- (uscale u * ln10) * exp (- (uscale u * ln10) * x0)))
    end.
    + apply derivable_pt_lim_exp_scaled.
    + unfold root_mag, Rpower. cbn [mag unit]. fold ln10.
      replace (- (x0 * uscale u) * ln10) with (- (uscale u * ln10) * x0) by ring.
      unfold Rdiv. ring.
Qed.

(** X14. Between a concentration and the negative-log potency the
    propagated error is the first-order one as well.  A "ki" or "ic50"
    value x0 above 1e-15 molar converts to "pic50" with derivative
    -1 / (x0 ln 10), and the unrounded error is 1 / (x0 ln 10) times the
    input error.  A potency converts to "ki" or "ic50" with a negative
    derivative d, and the unrounded error is -d times the input
    error. *)
Theorem error_is_derivative_potency (k : kind) (uc up : Unit) (x0 p0 e T : R)
    (unitK : option Unit) :
  k = Ki \/ k = Ic50 ->
  udim uc = dim_concentration ->
  0 < uscale uc ->
  root_mag threshold < root_mag (mkQ x0 uc) ->
  udim up = dim_one ->
  udim (target_unit k unitK) = dim_concentration ->
  (derivable_pt_lim
     (fun x => value_of (convertValue (mkQ x uc) (code k) "pic50" T None))
     x0 (- (1 / (ln10 * x0))) /\
   convertError_with unrounded (mkQ e uc) (mkQ x0 uc) (code k) "pic50" T None =
     ret (Some (mkQ (1 / (ln10 * x0) * e) dimensionless))) /\
  (derivable_pt_lim
     (fun x => value_of (convertValue (mkQ x up) "pic50" (code k) T unitK))
     p0 (- (uscale up * ln10 * Rpower 10 (- root_mag (mkQ p0 up)) * uscale molar
            / uscale (target_unit k unitK))) /\
   convertError_with unrounded (mkQ e up) (mkQ p0 up) "pic50" (code k) T unitK =
     ret (Some (mkQ (uscale up * ln10 * Rpower 10 (- root_mag (mkQ p0 up)) * uscale molar
                     / uscale (target_unit k unitK) * e)
                    (target_unit k unitK)))).
Proof.
  intros Hk Hc Hs Hgt Hp HoutK. pose proof ln10_gt_2 as Hl.
  split; split.
  - now apply derivative_concentration_to_pic50.
  - rewrite root_mag_threshold in Hgt.
    assert (Hpos : 0 < root_mag (mkQ x0 uc)) by lra.
    assert (Hge : root_mag threshold <= ln10 * root_mag (mkQ x0 uc))
      by (rewrite root_mag_threshold; nra).
    rewrite (convertError_with_concentration_to_pic50 unrounded k (mkQ e uc) (mkQ x0 uc) T None
               Hk Hc Hc Hge eq_refl).
    apply returned_eq. unfold unrounded. cbn [target_unit natural_unit uscale dimensionless].
    unfold root_mag in *. cbn [mag unit] in *.
    assert (Hx : x0 <> 0) by (intros ->; lra).
    field. repeat split; lra.
  - now apply derivative_pic50_to_concentration.
  - rewrite (convertError_with_pic50_to_concentration unrounded k (mkQ e up) (mkQ p0 up) T unitK
               Hk Hp Hp HoutK).
    apply returned_eq. unfold unrounded, root_mag. cbn [mag unit]. unfold Rdiv. ring.
Qed.

Lemma error_is_derivative_potency_witness :
  convertError_with unrounded (mkQ 1 nanomolar) (mkQ 5 nanomolar) (code Ki) "pic50" 300 None =
  ret (Some (mkQ (1 / (ln10 * 5) * 1) dimensionless)).
Proof.
  apply (error_is_derivative_potency Ki nanomolar dimensionless 5 9 1 300 None).
  - now left.
  - reflexivity.
  - simpl. lra.
  - rewrite root_mag_threshold. unfold root_mag. simpl. lra.
  - reflexivity.
  - reflexivity.
Defined.

(* ------------------------------------------------------------------ *)
(** * Further properties of the identifier resolution *)

(** ** Splitting and joining *)

Lemma string_app_assoc (a b c : string) : ((a ++ b) ++ c = a ++ (b ++ c))%string.
Proof. induction a as [|x a IH]; simpl; [reflexivity|now rewrite IH]. Qed.

Lemma string_app_empty (a : string) : (a ++ "" = a)%string.
Proof. induction a as [|x a IH]; simpl; [reflexivity|now rewrite IH]. Qed.

Lemma split_from_token (t cur s : string) :
  no_space t = true -> split_from cur (t ++ s) = split_from (cur ++ t) s.
Proof.
  revert cur. induction t as [|c t IH]; intros cur Ht; simpl.
  - now rewrite string_app_empty.
  - simpl in Ht. apply andb_prop in Ht. destruct Ht as [Hc Ht].
    apply negb_true_iff in Hc. rewrite Hc.
    rewrite (IH _ Ht), string_app_assoc. reflexivity.
Qed.

Lemma split_token_then (t rest : string) :
  t <> "" -> no_space t = true ->
  split (t ++ nl ++ rest) = t :: split rest.
Proof.
  intros Hne Ht. unfold split. rewrite (split_from_token t "" _ Ht).
  simpl. destruct t; [contradiction|reflexivity].
Qed.

Lemma split_token (t : string) : t <> "" -> no_space t = true -> split t = [t].
Proof.
  intros Hne Ht. unfold split. rewrite <- (string_app_empty t) at 1.
  rewrite (split_from_token t "" "" Ht). simpl. destruct t; [contradiction|reflexivity].
Qed.

Lemma split_join_tokens (l : list string) :
  Forall (fun t => t <> "" /\ no_space t = true) l -> split (join nl l) = l.
Proof.
  induction 1 as [|t l [Hne Ht] Hl IH]; [reflexivity|].
  unfold join in *. destruct l as [|t' l'].
  - simpl. now apply split_token.
  - change (String.concat nl (t :: t' :: l'))
      with (t ++ nl ++ String.concat nl (t' :: l'))%string.
    rewrite (split_token_then t _ Hne Ht). now rewrite IH.
Qed.

(** X15. Joining identifiers by newlines and splitting again gives the
    identifiers back, for any list of non-empty texts without white
    space.  So what [findPdbUrl] falls back to on a network failure
    reads back as exactly the identifiers of its input, however they
    were spaced there. *)
Theorem split_join_round_trip :
  (forall l : list string,
     Forall (fun t => t <> "" /\ no_space t = true) l -> split (join nl l) = l) /\
  (forall s : string, split (join nl (split s)) = split s) /\
  (forall (urlopen : Request -> net) (pdb e : string),
     urlopen (mkRequest "http://www.rcsb.org/pdb/rest/search" (Some (query_text pdb)))
       = NetURLError e ->
     exists r, snd (findPdbUrl urlopen (Some pdb)) = ret r /\ split r = split pdb).
Proof.
  split; [exact split_join_tokens|]. split.
  - intros s. apply split_join_tokens, split_tokens.
  - intros urlopen pdb e H. exists (join nl (split pdb)). split.
    + unfold findPdbUrl. now rewrite H.
    + apply split_join_tokens, split_tokens.
Qed.

(** ** The answer of the structure service *)







Lemma split_join_round_trip_witness :
  split (join nl (split "  3e92 3eml ")) = split "  3e92 3eml ".
Proof. apply split_join_round_trip. Defined.

(** ** Answers of the bibliographic service that do not fit *)

(** X17. Only a URL error is recovered by [findDoiUrl].  Once the page is
    read, whatever goes wrong is raised to the caller and no warning is
    emitted: the error of the JSON parser, the key error for an answer
    without "status", for an "ok" answer without "message", and for a
    message without "author". *)
Theorem findDoiUrl_failures_propagate
    (urlopen : Request -> net) (json_loads : string -> py json)
    (repr_container : json -> string) (doi page : string) :
  urlopen (mkRequest ("https://api.crossref.org/works/" ++ doi) None) = NetBody page ->
  (forall ex, json_loads page = raise ex ->
     findDoiUrl urlopen json_loads repr_container doi = ([], raise ex)) /\
  (forall top, json_loads page = ret (JObj top) ->
     lookup "status" top = None ->
     findDoiUrl urlopen json_loads repr_container doi = ([], raise (KeyError "status"))) /\
  (forall top, json_loads page = ret (JObj top) ->
     lookup "status" top = Some (JStr "ok") ->
     lookup "message" top = None ->
     findDoiUrl urlopen json_loads repr_container doi = ([], raise (KeyError "message"))) /\
  (forall top fields, json_loads page = ret (JObj top) ->
     lookup "status" top = Some (JStr "ok") ->
     lookup "message" top = Some (JObj fields) ->
     lookup "author" fields = None ->
     findDoiUrl urlopen json_loads repr_container doi = ([], raise (KeyError "author"))).
Proof.
  intros Hnet. unfold findDoiUrl. rewrite Hnet. unfold doi_link.
  split; [|split; [|split]].
  - intros ex Hload. now rewrite Hload.
  - intros top Hload Hstatus. rewrite Hload. cbn [bind ret getitem]. now rewrite Hstatus.
  - intros top Hload Hstatus Hmsg. rewrite Hload. cbn [bind ret getitem].
    rewrite Hstatus. cbn [bind ret eq_str]. change ("ok" =? "ok") with true.
    cbn [getitem]. now rewrite Hmsg.
  - intros top fields Hload Hstatus Hmsg Haut. rewrite Hload. cbn [bind ret getitem].
    rewrite Hstatus. cbn [bind ret eq_str]. change ("ok" =? "ok") with true.
    cbn [getitem]. rewrite Hmsg. cbn [bind ret getitem]. now rewrite Haut.
Qed.

Lemma findDoiUrl_failures_propagate_witness :
  findDoiUrl (fun _ => NetBody "page") (fun _ => ret (response sample_no_author))
      (fun _ => "") "10.1021/ja512751q" =
  ([], raise (KeyError "author")).
Proof.
  refine (proj2 (proj2 (proj2
    (findDoiUrl_failures_propagate (fun _ => NetBody "page")
       (fun _ => ret (response sample_no_author)) (fun _ => "")
       "10.1021/ja512751q" "page" eq_refl)))
    [("status", JStr "ok"); ("message-type", JStr "work");
     ("message", JObj sample_no_author)]
    sample_no_author _ _ _ _); reflexivity.
Defined.

(** X18. The message is unwrapped only for an answer whose status is "ok".
    For any other status the label is assembled from the fields of the
    answer itself, as if it were the message. *)
Theorem findDoiUrl_status_not_ok
    (urlopen : Request -> net) (json_loads : string -> py json)
    (repr_container : json -> string) (doi page : string)
    (top : list (string * json)) (status : json) (authors titles : list json)
    (link aut tit dat : string) :
  urlopen (mkRequest ("https://api.crossref.org/works/" ++ doi) None) = NetBody page ->
  json_loads page = ret (JObj top) ->
  lookup "status" top = Some status ->
  eq_str status "ok" = false ->
  lookup "author" top = Some (JArr authors) ->
  lookup "short-container-title" top = Some (JArr titles) ->
  lookup "URL" top = Some (JStr link) ->
  family_name authors aut ->
  short_title titles tit ->
  print_year top dat ->
  findDoiUrl urlopen json_loads repr_container doi =
  ([], ret ("REP1" ++ link ++ "REP2" ++
            (aut ++ " et al., " ++ tit ++ " " ++ dat) ++ "REP3")).
Proof.
  intros Hnet Hload Hstatus Hnot Haut Htit Hurl Hfam Hshort Hyear.
  unfold findDoiUrl. rewrite Hnet. f_equal.
  unfold doi_link. rewrite Hload. cbn [bind ret getitem].
  rewrite Hstatus. cbn [bind ret]. rewrite Hnot. cbn [bind ret getitem].
  rewrite Haut. cbn [bind ret py_len].
  rewrite Htit, Hurl.
  destruct Hfam as [| a rest fam Hfamily];
    destruct Hshort as [| t rest'];
    destruct Hyear as [fields Hnone | fields pp y parts dates Hpp Hparts];
    cbn [List.length Nat.ltb Nat.leb bind ret getitem getitem0 py_len has_key py_str];
    rewrite ?Hfamily, ?Hnone, ?Hpp;
    cbn [bind ret getitem getitem0 py_str];
    rewrite ?Hparts;
    reflexivity.
Qed.

Lemma findDoiUrl_status_not_ok_witness :
  findDoiUrl (fun _ => NetBody "page")
      (fun _ => ret (JObj (("status", JStr "failed") :: sample_no_print)))
      (fun _ => "") "10.1021/ja512751q" =
  ([], ret ("REP1" ++ sample_url ++ "REP2" ++
            ("Wang" ++ " et al., " ++ "J. Am. Chem. Soc." ++ " " ++ "XXXX") ++ "REP3")).
Proof.
  apply (findDoiUrl_status_not_ok (fun _ => NetBody "page")
           (fun _ => ret (JObj (("status", JStr "failed") :: sample_no_print)))
           (fun _ => "") "10.1021/ja512751q" "page"
           (("status", JStr "failed") :: sample_no_print) (JStr "failed")
           [JObj [("given", JStr "Lingle"); ("family", JStr "Wang")];
            JObj [("given", JStr "Yujie"); ("family", JStr "Wu")]]
           [JStr "J. Am. Chem. Soc."]
           sample_url "Wang" "J. Am. Chem. Soc." "XXXX").
  - reflexivity.
  - reflexivity.
  - reflexivity.
  - reflexivity.
  - reflexivity.
  - reflexivity.
  - reflexivity.
  - now apply first_author.
  - apply first_title.
  - apply no_print_date. reflexivity.
Defined.

(* ------------------------------------------------------------------ *)
(** * The two bounds near zero concentration *)

Lemma convertError_below_threshold_dg (k : kind) (eVal val : Quantity) (T : R)
    (outUnit : option Unit) :
  k = Ki \/ k = Ic50 ->
  udim (unit val) = dim_concentration ->
  root_mag val < root_mag threshold ->
  convertError eVal val (code k) "dg" T outUnit =
  ret (Some (of_unit 0 (target_unit Dg outUnit))).
Proof.
  intros Hk Hdim Hlt.
  assert (Hq : qlt val threshold = ret true) by now apply qlt_below.
  unfold convertError, convertError_with. rewrite (default_unit_code Dg).
  destruct Hk as [-> | ->]; simpl code; codes; rewrite Hq; reflexivity.
Qed.

(** X19. Between 1e-15 / ln 10 molar and 1e-15 molar the guards disagree.
    For a "ki" or "ic50" value in that window the converted value is
    saturated (0 as a free energy, -1e15 as a potency) and so is the
    error on the free energy (0, whatever the input error), but the
    error on the potency is not: it is the derivative formula
    eVal / (val ln 10), rounded to two decimals. *)
Theorem guards_disagree_in_window (k : kind) (eVal val : Quantity) (T : R) :
  k = Ki \/ k = Ic50 ->
  udim (unit val) = dim_concentration ->
  udim (unit eVal) = dim_concentration ->
  root_mag threshold <= ln10 * root_mag val ->
  root_mag val < root_mag threshold ->
  convertValue val (code k) "dg" T None = ret (Some (of_unit 0 kilocalories_per_mole)) /\
  convertValue val (code k) "pic50" T None = ret (Some (of_unit (-1e15) dimensionless)) /\
  convertError eVal val (code k) "dg" T None = ret (Some (of_unit 0 kilocalories_per_mole)) /\
  convertError eVal val (code k) "pic50" T None =
    ret (Some (mkQ (round2 (root_mag eVal / (ln10 * root_mag val))) dimensionless)).
Proof.
  intros Hk Hdim Hedim Hge Hlt.
  destruct (convertValue_below_threshold k val T None Hk Hdim Hlt) as [H1 H2].
  split; [exact H1|]. split; [exact H2|]. split.
  - now apply convertError_below_threshold_dg.
  - unfold convertError.
    rewrite (convertError_with_concentration_to_pic50 round2 k eVal val T None
               Hk Hdim Hedim Hge eq_refl).
    apply returned_rnd_eq. cbn [target_unit natural_unit uscale dimensionless].
    unfold Rdiv. rewrite Rinv_1. ring.
Qed.

Lemma guards_disagree_in_window_witness :
  convertValue (mkQ 5e-16 molar) (code Ki) "dg" 300 None =
    ret (Some (of_unit 0 kilocalories_per_mole)) /\
  convertValue (mkQ 5e-16 molar) (code Ki) "pic50" 300 None =
    ret (Some (of_unit (-1e15) dimensionless)) /\
  convertError (mkQ 1e-16 molar) (mkQ 5e-16 molar) (code Ki) "dg" 300 None =
    ret (Some (of_unit 0 kilocalories_per_mole)) /\
  convertError (mkQ 1e-16 molar) (mkQ 5e-16 molar) (code Ki) "pic50" 300 None =
    ret (Some (mkQ (round2 (root_mag (mkQ 1e-16 molar) / (ln10 * root_mag (mkQ 5e-16 molar))))
                   dimensionless)).
Proof.
  apply (guards_disagree_in_window Ki (mkQ 1e-16 molar) (mkQ 5e-16 molar) 300).
  - now left.
  - reflexivity.
  - reflexivity.
  - rewrite root_mag_threshold. unfold root_mag. simpl. pose proof ln10_gt_2. lra.
  - rewrite root_mag_threshold. unfold root_mag. simpl. lra.
Defined.

(* ------------------------------------------------------------------ *)
(** * Potency and concentration: order and sign *)

(** X20. The potency runs against the concentration: of two "ki" (or
    "ic50") values of at least 1e-15 molar the larger one gets the
    smaller or equal "pic50"; the relation does not depend on the
    temperature; and a concentration of at most 1 molar has a potency
    that is not negative. *)
Theorem convertValue_pic50_antitone (k : kind) (val1 val2 : Quantity) (T T' : R) :
  k = Ki \/ k = Ic50 ->
  udim (unit val1) = dim_concentration ->
  udim (unit val2) = dim_concentration ->
  root_mag threshold <= root_mag val1 ->
  root_mag val1 <= root_mag val2 ->
  value_of (convertValue val2 (code k) "pic50" T None) <=
    value_of (convertValue val1 (code k) "pic50" T None) /\
  convertValue val1 (code k) "pic50" T None = convertValue val1 (code k) "pic50" T' None /\
  (root_mag val2 <= uscale molar ->
   0 <= value_of (convertValue val2 (code k) "pic50" T None)).
Proof.
  intros Hk Hd1 Hd2 Hge H12. pose proof ln10_gt_2 as Hl.
  assert (Hge2 : root_mag threshold <= root_mag val2) by lra.
  rewrite !(convertValue_concentration_to_pic50 k val1 _ None Hk Hd1 Hge).
  rewrite (convertValue_concentration_to_pic50 k val2 T None Hk Hd2 Hge2).
  cbn [value_of ret mag]. rewrite root_mag_threshold in *.
  assert (Hinv : 0 < / ln10) by (apply Rinv_0_lt_compat; lra).
  assert (Hr : forall v, mag v * (uscale (unit v) / uscale molar) = root_mag v / 1000).
  { intros v. unfold root_mag. cbn [uscale molar]. unfold Rdiv. ring. }
  rewrite !Hr. cbn [uscale molar].
  split; [|split; [reflexivity|]].
  - assert (Hln : ln (root_mag val1 / 1000) <= ln (root_mag val2 / 1000))
      by (apply ln_le; lra).
    unfold Rdiv at 1 3. apply Rmult_le_compat_r; lra.
  - intros H1.
    assert (Hln : ln (root_mag val2 / 1000) <= 0)
      by (rewrite <- ln_1; apply ln_le; lra).
    unfold Rdiv at 1. apply Rmult_le_pos; lra.
Qed.

Lemma convertValue_pic50_antitone_witness :
  value_of (convertValue (mkQ 50 nanomolar) (code Ki) "pic50" 300 None) <=
    value_of (convertValue (mkQ 1 nanomolar) (code Ki) "pic50" 300 None) /\
  convertValue (mkQ 1 nanomolar) (code Ki) "pic50" 300 None =
    convertValue (mkQ 1 nanomolar) (code Ki) "pic50" 310 None /\
  (root_mag (mkQ 50 nanomolar) <= uscale molar ->
   0 <= value_of (convertValue (mkQ 50 nanomolar) (code Ki) "pic50" 300 None)).
Proof.
  apply (convertValue_pic50_antitone Ki (mkQ 1 nanomolar) (mkQ 50 nanomolar) 300 310).
  - now left.
  - reflexivity.
  - reflexivity.
  - rewrite root_mag_threshold. unfold root_mag. simpl. lra.
  - unfold root_mag. simpl. lra.
Defined.
